(** * CSV bulk import of property listings (task-2-refactor/server.js)

    A shallow embedding of the import endpoint: the Joi schema
    [propertySchema] and its validation, the csv-parser row stream consumed
    by [processCSVStream], and the [POST /import-properties] handler with
    the calls it makes to [Property.insertMany].

    JavaScript strings are sequences of code units; they are modelled by
    [string], one character per code unit (code units up to 255).  JavaScript
    objects used as records are finite maps from property names to values. *)

From Stdlib Require Import Ascii QArith.
From stdpp Require Import gmap strings list pretty sorting.

Local Open Scope Z_scope.
Local Open Scope nat_scope.

(** ** JavaScript values *)

Module Js.

(** The values that flow through the endpoint: strings (CSV cells, the
    broker id), numbers (a coerced price, a generated id) and [Date]s
    (milliseconds since the epoch). *)
Inductive Value :=
| Str (s : string)
| Num (q : Q)
| Date (ms : Z).

(** [String.prototype.trim] removes white space and line terminators from
    both ends: TAB, LF, VT, FF, CR, SP and NBSP among the code units
    modelled here. *)
Definition isWhiteSpace (c : ascii) : bool :=
  let n := nat_of_ascii c in
  ((9 <=? n) && (n <=? 13)) || (n =? 32) || (n =? 160).

Fixpoint trimStart (s : string) : string :=
  match s with
  | EmptyString => EmptyString
  | String c s' => if isWhiteSpace c then trimStart s' else s
  end.

Definition trimEnd (s : string) : string :=
  String.rev (trimStart (String.rev s)).

Definition trim (s : string) : string := trimEnd (trimStart s).

(** The double quote character, used by Joi to wrap labels. *)
Definition dquote : string := String (ascii_of_nat 34) EmptyString.

End Js.

Abbreviation JsObject := (gmap string Js.Value).

(** ** Joi: schemas, error details and validation of one object

    The part of Joi 17 that [propertySchema.validate(data,
    { stripUnknown: true })] exercises, with Joi's default preferences
    [convert: true] and [abortEarly: true]. *)

Module Joi.

(** Rules are kept in the order in which the schema chains them. *)
Inductive StringRule := Trim | Min (limit : nat) | Max (limit : nat).
Inductive NumberRule := Positive.

Inductive BaseType :=
| TString (rules : list StringRule)
| TNumber (rules : list NumberRule).

Record Schema := { base : BaseType; isRequired : bool }.

Definition string_ (rules : list StringRule) : Schema :=
  {| base := TString rules; isRequired := false |}.
Definition number_ (rules : list NumberRule) : Schema :=
  {| base := TNumber rules; isRequired := false |}.
Definition required (s : Schema) : Schema :=
  {| base := base s; isRequired := true |}.

(** Joi's error codes (the [type] of an error detail). *)
Inductive ErrorCode :=
| AnyRequired
| StringBase | StringEmpty | StringMin (limit : nat) | StringMax (limit : nat)
| NumberBase | NumberUnsafe | NumberInfinity | NumberPositive.

Record Detail := { path : string; code : ErrorCode }.

Global Instance Detail_inhabited : Inhabited Detail :=
  populate {| path := ""; code := AnyRequired |}.

(** The label of a key is the key in double quotes. *)
Definition label (key : string) : string := Js.dquote +:+ key +:+ Js.dquote.

(** Joi's message templates, after the label. *)
Definition template (c : ErrorCode) : string :=
  match c with
  | AnyRequired => " is required"
  | StringBase => " must be a string"
  | StringEmpty => " is not allowed to be empty"
  | StringMin n => " length must be at least " +:+ pretty n +:+ " characters long"
  | StringMax n =>
      " length must be less than or equal to " +:+ pretty n +:+ " characters long"
  | NumberBase => " must be a number"
  | NumberUnsafe => " must be a safe number"
  | NumberInfinity => " cannot be infinity"
  | NumberPositive => " must be a positive number"
  end.

Definition message (d : Detail) : string := label (path d) +:+ template (code d).

(** What Joi's string-to-number coercion makes of a string.  The coercion
    matches the string against Joi's number syntax, reads it with
    [parseFloat] and checks that no precision was lost; its outcome is one
    of the four cases below.  It is binary64 arithmetic and is taken as an
    interface of the platform. *)
Inductive Coerced :=
| NotNumeric            (* the number syntax does not match: no coercion *)
| Unsafe                (* precision lost: the coercion reports number.unsafe *)
| Infinite              (* parseFloat overflowed to an infinity *)
| Finite (q : Q).       (* a finite double *)

Class NumberSyntax := numberCoerce : string → Coerced.

(** The outcome of validating one value: [Valid None] stands for a result
    value of [undefined]. *)
Inductive Outcome :=
| Valid (v : option Js.Value)
| Invalid (c : ErrorCode).

Definition MAX_SAFE_INTEGER : Z := 9007199254740991.

Definition hasTrim (rules : list StringRule) : bool :=
  existsb (λ r, match r with Trim => true | _ => false end) rules.

(** [schema.$_getRule('min')] with limit 0 lets the empty string through. *)
Definition minIsZero (rules : list StringRule) : bool :=
  existsb (λ r, match r with Min 0 => true | _ => false end) rules.

(** The rules of a string schema, run in order on a string value; under
    [convert] the trim rule never fails. *)
Fixpoint stringRules (rules : list StringRule) (s : string) : Outcome :=
  match rules with
  | [] => Valid (Some (Js.Str s))
  | Trim :: rest => stringRules rest s
  | Min limit :: rest =>
      if limit <=? String.length s then stringRules rest s
      else Invalid (StringMin limit)
  | Max limit :: rest =>
      if String.length s <=? limit then stringRules rest s
      else Invalid (StringMax limit)
  end.

Fixpoint numberRules (rules : list NumberRule) (q : Q) : Outcome :=
  match rules with
  | [] => Valid (Some (Js.Num q))
  | Positive :: rest =>
      if (0 <? Qnum q)%Z then numberRules rest q else Invalid NumberPositive
  end.

(** Base validation of a number (the safe-integer range), then its rules. *)
Definition Qltb (x y : Q) : bool := negb (Qle_bool y x).

Definition numberValue (rules : list NumberRule) (q : Q) : Outcome :=
  if Qltb (inject_Z MAX_SAFE_INTEGER) q || Qltb q (inject_Z (- MAX_SAFE_INTEGER))
  then Invalid NumberUnsafe
  else numberRules rules q.

Section Validate.
Context `{NumberSyntax}.

(** Validation of one value against one schema: coercion, presence, base
    type, then the rules. *)
Definition validateValue (sch : Schema) (item : option Js.Value) : Outcome :=
  match item with
  | None => if isRequired sch then Invalid AnyRequired else Valid None
  | Some v =>
      match base sch, v with
      | TString rules, Js.Str s =>
          let s := if hasTrim rules then Js.trim s else s in
          if decide (s = "") then
            if minIsZero rules then stringRules rules s else Invalid StringEmpty
          else stringRules rules s
      | TString _, _ => Invalid StringBase
      | TNumber rules, Js.Str s =>
          match numberCoerce s with
          | NotNumeric => Invalid NumberBase
          | Unsafe => Invalid NumberUnsafe
          | Infinite => Invalid NumberInfinity
          | Finite q => numberValue rules q
          end
      | TNumber rules, Js.Num q => numberValue rules q
      | TNumber _, _ => Invalid NumberBase
      end
  end.

(** The keys of an object schema are validated in declaration order on a
    shallow clone of the input; the first failure aborts. *)
Fixpoint validateKeys (keys : list (string * Schema)) (value : JsObject)
  : Detail + JsObject :=
  match keys with
  | [] => inr value
  | (key, sch) :: rest =>
      match validateValue sch (value !! key) with
      | Invalid c => inl {| path := key; code := c |}
      | Valid None => validateKeys rest (delete key value)
      | Valid (Some v) => validateKeys rest (<[key := v]> value)
      end
  end.

(** With [stripUnknown] the keys that no child schema processed are deleted
    from the clone. *)
Definition stripUnknownKeys (keys : list (string * Schema)) (value : JsObject)
  : JsObject :=
  filter (λ kv, kv.1 ∈ keys.*1) value.

Record ValidationError := { details : list Detail }.

(** The pair [{ error, value }] returned by [schema.validate]. *)
Inductive Result :=
| Failure (error : ValidationError)
| Success (value : JsObject).

Definition validate (keys : list (string * Schema)) (data : JsObject) : Result :=
  match validateKeys keys data with
  | inl d => Failure {| details := [d] |}
  | inr value => Success (stripUnknownKeys keys value)
  end.

End Validate.

End Joi.

(** ** Joi on a store of objects

    JavaScript passes objects by reference.  [JoiStore.validateAt] is the
    same validation written over a store: the input is a reference, Joi
    works on a shallow clone allocated at a fresh location, and every write
    or delete goes to the clone. *)

Module JoiStore.
Import Joi.

Abbreviation Store := (gmap nat JsObject).

Inductive ResultAt :=
| FailureAt (error : ValidationError)
| SuccessAt (value : nat).

Section StoreValidate.
Context `{NumberSyntax}.

Fixpoint validateKeysAt (keys : list (string * Schema)) (clone : nat) (σ : Store)
  : option Detail * Store :=
  match keys with
  | [] => (None, σ)
  | (key, sch) :: rest =>
      match validateValue sch (σ !! clone ≫= (.!! key)) with
      | Invalid c => (Some {| path := key; code := c |}, σ)
      | Valid None => validateKeysAt rest clone (alter (delete key) clone σ)
      | Valid (Some v) => validateKeysAt rest clone (alter (insert key v) clone σ)
      end
  end.

(** [None] only for a dangling reference, which JavaScript rules out. *)
Definition validateAt (keys : list (string * Schema)) (data : nat) (σ : Store)
  : option (ResultAt * Store) :=
  match σ !! data with
  | None => None
  | Some record =>
      let clone := fresh (dom σ) in
      match validateKeysAt keys clone (<[clone := record]> σ) with
      | (Some d, σ') => Some (FailureAt {| details := [d] |}, σ')
      | (None, σ') => Some (SuccessAt clone, alter (stripUnknownKeys keys) clone σ')
      end
  end.

(** The result with the value object read back from the store. *)
Definition resultOf (σ : Store) (r : ResultAt) : option Result :=
  match r with
  | FailureAt e => Some (Failure e)
  | SuccessAt l => Success <$> σ !! l
  end.

End StoreValidate.

End JoiStore.

(** ** csv-parser: from lines of cells to row objects

    [Readable.from(buffer.toString()).pipe(csv())] with csv-parser's default
    options.  The tokenizer (separator, quotes, escapes, line ends) is an
    interface; what the parser does with the cells of each line is
    modelled: the first line gives the headers and emits nothing, every
    later line is written as one row object. *)

Module Csv.

(** The cells of every line of the buffer, in file order, or [None] when the
    stream emits ['error']. *)
Class Tokenizer := csvLines : list Byte.byte → option (list (list string)).

(** A cell beyond the last header is stored under [_<index>]. *)
Definition columnName (headers : list string) (index : nat) : string :=
  default ("_" +:+ pretty index) (headers !! index).

Definition writeRow (headers cells : list string) : JsObject :=
  foldl (λ o ic, <[columnName headers ic.1 := Js.Str ic.2]> o) ∅ (imap pair cells).

Definition rows (lines : list (list string)) : list JsObject :=
  match lines with
  | [] => []
  | headers :: rest => writeRow headers <$> rest
  end.

End Csv.

(** ** The server: [processCSVStream] and the import handler *)

Module Server.
Import Joi.

Definition propertySchema : list (string * Schema) :=
  [ ("title", required (string_ [Trim; Min 1; Max 200]));
    ("price", required (number_ [Positive]));
    ("projectId", required (string_ [Trim; Min 1])) ].

Record RowError := { row : nat; data : JsObject; error : string }.

(** The variables captured by the stream's event handlers. *)
Record StreamState :=
  { rowIndex : nat; results : list JsObject; errors : list RowError }.

Definition initialState : StreamState :=
  {| rowIndex := 0; results := []; errors := [] |}.

Section Stream.
Context `{NumberSyntax} `{Csv.Tokenizer}.

(** The ['data'] handler. *)
Definition onData (st : StreamState) (record : JsObject) : StreamState :=
  let rowIndex' := S (rowIndex st) in
  match validate propertySchema record with
  | Failure e =>
      {| rowIndex := rowIndex';
         results := results st;
         errors := errors st ++
           [ {| row := rowIndex'; data := record;
                error := message (details e !!! 0) |} ] |}
  | Success value =>
      {| rowIndex := rowIndex';
         results := results st ++ [value];
         errors := errors st |}
  end.

Definition consume (records : list JsObject) : StreamState :=
  foldl onData initialState records.

(** The promise resolves with [{ validProperties, errors }] on ['end'] and
    rejects on ['error']. *)
Definition processCSVStream (buffer : list Byte.byte)
  : option (list JsObject * list RowError) :=
  match Csv.csvLines buffer with
  | None => None
  | Some lines =>
      let st := consume (Csv.rows lines) in
      Some (results st, errors st)
  end.

End Stream.

(** *** The world the handler runs in

    The handler reads the wall clock ([Date.now()], [new Date()]) and calls
    the decoder and the persistence gateway; every such call is recorded in
    a trace.  Logging is not modelled. *)

Inductive Event :=
| CsvDecode (buffer : list Byte.byte)
| InsertMany (properties : list JsObject).

Record World := { reads : nat; trace : list Event }.

Definition initialWorld : World := {| reads := 0; trace := [] |}.

(** The wall clock: the time returned by the n-th reading. *)
Class WallClock := clockAt : nat → Z.

Definition M (A : Type) : Type := World → A * World.

Global Instance M_ret : MRet M := λ A a w, (a, w).
Global Instance M_bind : MBind M :=
  λ A B f m w, let '(a, w') := m w in f a w'.

Definition emit (e : Event) : M unit :=
  λ w, (tt, {| reads := reads w; trace := trace w ++ [e] |}).

Fixpoint imapM {A B} (f : nat → A → M B) (index : nat) (l : list A) : M (list B) :=
  match l with
  | [] => mret []
  | x :: l' => y ← f index x; ys ← imapM f (S index) l'; mret (y :: ys)
  end.

Record Summary :=
  { totalProcessed : nat; successful : nat; failed : nat; processingTimeMs : Z }.

(** The JSON body together with the HTTP status. *)
Record Response :=
  { status : nat;
    success : bool;
    responseMessage : option string;
    responseError : option string;
    summary : option Summary;
    validationErrors : option (list RowError) }.

Record File := { originalname : string; size : nat; buffer : option (list Byte.byte) }.
Record User := { id : string }.
Record Request := { user : option User; file : option File }.

Definition authenticateUser (req : Request) : Request :=
  {| user := Some {| id := "broker_123" |}; file := file req |}.

Definition rejected (msg : string) (errs : option (list RowError)) : Response :=
  {| status := 400; success := false; responseMessage := None;
     responseError := Some msg; summary := None; validationErrors := errs |}.

Definition internalError : Response :=
  {| status := 500; success := false;
     responseMessage :=
       Some "Please try again or contact support if the problem persists";
     responseError := Some "Internal server error during import";
     summary := None; validationErrors := None |}.

Section Handler.
Context `{NumberSyntax} `{Csv.Tokenizer} `{WallClock}.

Definition now : M Z :=
  λ w, (clockAt (reads w), {| reads := S (reads w); trace := trace w |}).

(** The mock [Property.insertMany]: one stored record per submitted record,
    each with a generated id. *)
Definition insertMany (properties : list JsObject) : M (list JsObject) :=
  emit (InsertMany properties);;
  imapM (λ index prop,
           t ← now; mret (<["id" := Js.Num (inject_Z (t + Z.of_nat index))]> prop))
        0 properties.

Definition decode (buffer : list Byte.byte)
  : M (option (list JsObject * list RowError)) :=
  emit (CsvDecode buffer);; mret (processCSVStream buffer).

(** The handler of [POST /import-properties], after the upload middleware
    has filled [req.file].  Reading [req.user.id] of a request without a
    user throws; the [catch] block answers every exception with the
    internal error. *)
Definition handler (req : Request) : M Response :=
  startTime ← now;
  match file req with
  | None => mret (rejected "No CSV file provided" None)
  | Some f =>
      match buffer f with
      | None | Some [] => mret (rejected "Empty CSV file provided" None)
      | Some bytes =>
          match user req with
          | None => mret internalError
          | Some broker =>
              parsed ← decode bytes;
              match parsed with
              | None => mret internalError
              | Some (validProperties, errors) =>
                  if decide (length validProperties = 0) then
                    mret (rejected "No valid properties found in CSV" (Some errors))
                  else
                    propertiesWithBroker ←
                      imapM (λ _ property,
                               createdAt ← now;
                               mret (<["createdAt" := Js.Date createdAt]>
                                       (<["brokerId" := Js.Str (id broker)]> property)))
                            0 validProperties;
                    insertedProperties ← insertMany propertiesWithBroker;
                    endTime ← now;
                    let processingTime := (endTime - startTime)%Z in
                    mret
                      {| status := 200;
                         success := true;
                         responseMessage :=
                           Some (if decide (0 < length errors)
                                 then "Import completed with "
                                        +:+ pretty (length errors)
                                        +:+ " validation errors"
                                 else "Import completed");
                         responseError := None;
                         summary :=
                           Some {| totalProcessed :=
                                     length validProperties + length errors;
                                   successful := length insertedProperties;
                                   failed := length errors;
                                   processingTimeMs := processingTime |};
                         validationErrors :=
                           if decide (0 < length errors) then Some errors else None |}
              end
          end
      end
  end.

(** The route: [authenticateUser], then the handler. *)
Definition importProperties (req : Request) : M Response :=
  handler (authenticateUser req).

End Handler.

(** The batches submitted to the gateway and their sizes, in call order. *)
Definition insertManyCalls (t : list Event) : list (list JsObject) :=
  omap (λ e, match e with InsertMany ps => Some ps | _ => None end) t.

Definition insertManySizes (t : list Event) : list nat :=
  length <$> insertManyCalls t.

(** The buffers handed to the decoder. *)
Definition decodeCalls (t : list Event) : list (list Byte.byte) :=
  omap (λ e, match e with CsvDecode b => Some b | _ => None end) t.

End Server.

(** ** The upload middleware and the error-handling middleware

    [upload.single("properties-csv")] stands before the handler and the
    error-handling middleware after it.  Multer is modelled on a body with
    at most one file part: a file in another field is refused, then
    [fileFilter] is asked, then the file is read into memory up to
    [limits.fileSize]; an error goes to the error-handling middleware and
    the handler is not run. *)

Module Upload.
Import Server.

Record Part :=
  { fieldname : string; filename : string; mimetype : string;
    content : list Byte.byte }.

(** The errors that reach the error-handling middleware: multer's own,
    with their code, and plain [Error]s. *)
Inductive Error :=
| MulterError (code : string)
| PlainError (message : string).

(** [limits.fileSize]. *)
Definition fileSize : N := 10 * 1024 * 1024.

(** [fileFilter]; [None] is [cb(null, true)]. *)
Definition fileFilter (file : Part) : option Error :=
  if decide (mimetype file ≠ "text/csv")
  then Some (PlainError "Only CSV files are allowed")
  else None.

Definition single (field : string) (part : option Part) : Error + option File :=
  match part with
  | None => inr None
  | Some p =>
      if decide (fieldname p = field) then
        match fileFilter p with
        | Some e => inl e
        | None =>
            if (fileSize <? N.of_nat (length (content p)))%N
            then inl (MulterError "LIMIT_FILE_SIZE")
            else inr (Some {| originalname := filename p;
                              size := length (content p);
                              buffer := Some (content p) |})
        end
      else inl (MulterError "LIMIT_UNEXPECTED_FILE")
  end.

(** The error-handling middleware. *)
Definition errorMiddleware (e : Error) : Response :=
  match e with
  | MulterError code =>
      if decide (code = "LIMIT_FILE_SIZE")
      then rejected "File too large. Maximum size is 10MB" None
      else {| status := 500; success := false; responseMessage := None;
              responseError := Some "Internal server error";
              summary := None; validationErrors := None |}
  | PlainError _ =>
      {| status := 500; success := false; responseMessage := None;
         responseError := Some "Internal server error";
         summary := None; validationErrors := None |}
  end.

Section Route.
Context `{Joi.NumberSyntax} `{Csv.Tokenizer} `{WallClock}.

(** [app.post("/import-properties", authenticateUser, upload.single(...),
    handler)] followed by the error-handling middleware. *)
Definition route (part : option Part) : M Response :=
  match single "properties-csv" part with
  | inl e => mret (errorMiddleware e)
  | inr f => handler (authenticateUser {| user := None; file := f |})
  end.

End Route.

End Upload.

(** ** Sample platform

    Concrete instances of the three interfaces, used to run the model on
    example files.  [Sample.syntax] reads an optional minus sign followed by
    1 to 15 decimal digits, on which it agrees with Joi's coercion; it is
    used on such strings and on strings without digits only.
    [Sample.tokenizer] splits a buffer at LF and each line at commas, as
    csv-parser does on files without quotes and carriage returns. *)

Module Sample.

Fixpoint digits (s : string) (acc : Z) : option Z :=
  match s with
  | EmptyString => Some acc
  | String c s' =>
      match Ascii.is_nat c with
      | Some d => digits s' (10 * acc + Z.of_nat d)%Z
      | None => None
      end
  end.

Definition unsigned (s : string) : option Z :=
  if decide (1 ≤ String.length s ≤ 15) then digits s 0%Z else None.

Definition syntax : Joi.NumberSyntax :=
  λ s,
    match s with
    | String "-" s' =>
        match unsigned s' with
        | Some n => Joi.Finite (inject_Z (- n))
        | None => Joi.NotNumeric
        end
    | _ =>
        match unsigned s with
        | Some n => Joi.Finite (inject_Z n)
        | None => Joi.NotNumeric
        end
    end.

(** Splitting: [cell] is the current cell in reverse, [cells] the finished
    cells of the current line in reverse. *)
Fixpoint split (sep : ascii) (s : string) (cell : string) (cells : list string)
  : list string :=
  match s with
  | EmptyString => reverse (String.rev cell :: cells)
  | String c s' =>
      if decide (c = sep) then split sep s' "" (String.rev cell :: cells)
      else split sep s' (String c cell) cells
  end.

Definition cellsOfLine (line : string) : list string :=
  if decide (line = "") then [] else split "," line "" [].

Definition linesOf (text : string) : list string :=
  let ls := split "010" text "" [] in
  match reverse ls with
  | "" :: front => reverse front
  | _ => ls
  end.

Definition tokenizer : Csv.Tokenizer :=
  λ bytes, Some (cellsOfLine <$> linesOf (String.string_of_list_byte bytes)).

Definition clock : Server.WallClock := λ n, (1700000000000 + Z.of_nat n)%Z.

Definition LF : string := String "010" EmptyString.

Definition uploaded (text : string) : Server.File :=
  {| Server.originalname := "properties.csv";
     Server.size := String.length text;
     Server.buffer := Some (String.list_byte_of_string text) |}.

Definition upload (text : string) : Server.Request :=
  {| Server.user := None; Server.file := Some (uploaded text) |}.

(** Runs the endpoint on an uploaded text in the initial world. *)
Definition run (text : string) : Server.Response * Server.World :=
  @Server.importProperties syntax tokenizer clock (upload text) Server.initialWorld.

Definition header : string := "title,price,projectId" +:+ LF.

Fixpoint copies (n : nat) (line : string) : string :=
  match n with
  | 0 => ""
  | S n' => line +:+ copies n' line
  end.

(** A file of 2500 valid data rows. *)
Definition file2500 : string := header +:+ copies 2500 ("Villa,500000,p1" +:+ LF).

(** A file with one valid and one invalid data row, and one whose only data
    row is invalid. *)
Definition fileMixed : string :=
  header +:+ "Villa,500000,p1" +:+ LF +:+ "Ok,-5,p1" +:+ LF.
Definition fileInvalid : string := header +:+ ",100,p1" +:+ LF.

(** The lines the sample tokenizer finds in a text. *)
Definition linesIn (text : string) : list (list string) :=
  cellsOfLine <$> linesOf (String.string_of_list_byte (String.list_byte_of_string text)).

(** The row object of a line with the three declared columns. *)
Definition row (title price projectId : string) : JsObject :=
  <["projectId" := Js.Str projectId]>
    (<["price" := Js.Str price]> (<["title" := Js.Str title]> ∅)).

End Sample.

(** ** Vocabulary of the properties *)

Module Spec.
Import Joi Server.

Section Vocabulary.
Context `{NumberSyntax}.

(** A field passes when its own schema accepts what the record holds
    under its key. *)
Definition passes (record : JsObject) (ks : string * Schema) : Prop :=
  ∃ v, validateValue ks.2 (record !! ks.1) = Valid v.

(** [d] is the first rule violation of [record] when the fields are taken
    in the declaration order of [keys]. *)
Definition firstViolation (keys : list (string * Schema)) (record : JsObject)
    (d : Detail) : Prop :=
  ∃ before sch after,
    keys = before ++ (path d, sch) :: after ∧
    Forall (passes record) before ∧
    validateValue sch (record !! path d) = Invalid (code d).

(** The field declared under [key] in [propertySchema] passes. *)
Definition fieldPasses (key : string) (record : JsObject) : Prop :=
  ∃ sch, (key, sch) ∈ propertySchema ∧ passes record (key, sch).

(** A message of the field [key]. *)
Definition cites (key : string) (msg : string) : Prop :=
  ∃ c, msg = message {| path := key; code := c |}.

Definition accepted (record : JsObject) : bool :=
  match validate propertySchema record with
  | Success _ => true
  | Failure _ => false
  end.

(** The price cell is absent, is not numeric, or is a number not above 0. *)
Definition badPrice (record : JsObject) : Prop :=
  record !! "price" = None ∨
  ∃ s, record !! "price" = Some (Js.Str s) ∧
       (numberCoerce s = NotNumeric ∨ ∃ q, numberCoerce s = Finite q ∧ (q <= 0)%Q).

(** The row errors and the validated values that a run of the ['data']
    handler over [records] yields, the first record being row [S n]. *)
Fixpoint rowErrorsFrom (n : nat) (records : list JsObject) : list RowError :=
  match records with
  | [] => []
  | r :: rest =>
      match validate propertySchema r with
      | Failure e =>
          {| row := S n; data := r; error := message (details e !!! 0) |}
            :: rowErrorsFrom (S n) rest
      | Success _ => rowErrorsFrom (S n) rest
      end
  end.

Fixpoint validValues (records : list JsObject) : list JsObject :=
  match records with
  | [] => []
  | r :: rest =>
      match validate propertySchema r with
      | Failure _ => validValues rest
      | Success value => value :: validValues rest
      end
  end.

End Vocabulary.

(** The response of an import that reached the gateway. *)
Definition completed (validCount insertedCount : nat) (errs : list RowError)
    (ms : Z) : Response :=
  {| status := 200;
     success := true;
     responseMessage :=
       Some (if decide (0 < length errs)
             then "Import completed with " +:+ pretty (length errs)
                    +:+ " validation errors"
             else "Import completed");
     responseError := None;
     summary :=
       Some {| totalProcessed := validCount + length errs;
               successful := insertedCount;
               failed := length errs;
               processingTimeMs := ms |};
     validationErrors := if decide (0 < length errs) then Some errs else None |}.

(** The world after [k] more clock readings and the events [evs]. *)
Definition after (k : nat) (evs : list Event) (w : World) : World :=
  {| reads := reads w + k; trace := trace w ++ evs |}.

Section Stamps.
Context `{WallClock}.

(** [imapM] over a callback that reads the clock once per element: element
    [index + k] is built from the reading number [n + k]. *)
Fixpoint stamped {A B} (g : Z → nat → A → B) (index n : nat) (l : list A) : list B :=
  match l with
  | [] => []
  | x :: l' => g (clockAt n) index x :: stamped g (S index) (S n) l'
  end.

Definition withBroker (brokerId : string) (t : Z) (_ : nat) (property : JsObject)
  : JsObject :=
  <["createdAt" := Js.Date t]> (<["brokerId" := Js.Str brokerId]> property).

Definition withId (t : Z) (index : nat) (prop : JsObject) : JsObject :=
  <["id" := Js.Num (inject_Z (t + Z.of_nat index))]> prop.

End Stamps.

End Spec.

(** ** Further vocabulary and examples *)

Module Terms.
Import Joi Server.

(** The wall clock never goes backwards. *)
Definition monotone `{WallClock} : Prop :=
  ∀ a b, a ≤ b → (clockAt a ≤ clockAt b)%Z.

(** No white space at the start, or at the end, of a string. *)
Definition noLeadingSpace (s : string) : Prop :=
  match s with
  | EmptyString => True
  | String c _ => Js.isWhiteSpace c = false
  end.

Definition noTrailingSpace (s : string) : Prop := noLeadingSpace (String.rev s).

(** The generated id of a stored record. *)
Definition idOf (stored : JsObject) : option Z :=
  match stored !! "id" with
  | Some (Js.Num q) => Some (Qnum q)
  | _ => None
  end.

(** The messages a row of a CSV file can be reported with. *)
Definition rowMessages : list string :=
  message <$>
    [ {| path := "title"; code := AnyRequired |};
      {| path := "title"; code := StringEmpty |};
      {| path := "title"; code := StringMax 200 |};
      {| path := "price"; code := AnyRequired |};
      {| path := "price"; code := NumberBase |};
      {| path := "price"; code := NumberUnsafe |};
      {| path := "price"; code := NumberInfinity |};
      {| path := "price"; code := NumberPositive |};
      {| path := "projectId"; code := AnyRequired |};
      {| path := "projectId"; code := StringEmpty |} ].

(** Every cell of a row object is a string. *)
Definition cellsAreStrings (record : JsObject) : Prop :=
  ∀ k v, record !! k = Some v → ∃ s, v = Js.Str s.

(** The object holding exactly the three declared fields. *)
Definition normalised (title : string) (price : Q) (projectId : string) : JsObject :=
  <["projectId" := Js.Str projectId]>
    (<["price" := Js.Num price]> (<["title" := Js.Str title]> ∅)).

End Terms.

Module Fixtures.

(** A tokenizer whose stream emits ['error']. *)
Definition brokenTokenizer : Csv.Tokenizer := λ _, None.

Definition csvPart (text : string) : Upload.Part :=
  {| Upload.fieldname := "properties-csv";
     Upload.filename := "properties.csv";
     Upload.mimetype := "text/csv";
     Upload.content := String.list_byte_of_string text |}.

Definition pdfPart : Upload.Part :=
  {| Upload.fieldname := "properties-csv";
     Upload.filename := "brochure.pdf";
     Upload.mimetype := "application/pdf";
     Upload.content := String.list_byte_of_string "%PDF" |}.

End Fixtures.

(** * Properties *)

(** ** Validation of one record *)

Module JoiFacts.
Import Joi Spec.

Section Facts.
Context `{NumberSyntax}.

Lemma passes_agree (r r' : JsObject) ks :
  r !! ks.1 = r' !! ks.1 → passes r ks → passes r' ks.
Proof. unfold passes. by intros ->. Qed.

Lemma firstViolation_agree keys (r r' : JsObject) d :
  (∀ k, k ∈ keys.*1 → r !! k = r' !! k) →
  firstViolation keys r d → firstViolation keys r' d.
Proof.
  intros Hag (before & sch & after & -> & Hb & Hd).
  exists before, sch, after. split; [done|]. split.
  - apply Forall_forall. intros ks Hin.
    rewrite Forall_forall in Hb. specialize (Hb ks Hin). revert Hb.
    apply passes_agree, Hag. rewrite fmap_app. apply elem_of_app. left.
    by apply list_elem_of_fmap_2.
  - rewrite <- Hag; [done|]. rewrite fmap_app. apply elem_of_app. right.
    simpl. left.
Qed.

Lemma firstViolation_later key sch keys (r : JsObject) d :
  passes r (key, sch) → firstViolation keys r d →
  firstViolation ((key, sch) :: keys) r d.
Proof.
  intros Hp (before & sch' & after & -> & Hb & Hd).
  exists ((key, sch) :: before), sch', after. split; [done|]. split; [|done].
  by constructor.
Qed.

(** A failure of the key loop is the first violation in declaration
    order. *)
Lemma validateKeys_failure keys (value : JsObject) d :
  NoDup keys.*1 → validateKeys keys value = inl d → firstViolation keys value d.
Proof.
  revert value. induction keys as [|[key sch] rest IH]; intros value Hnd Hv.
  { discriminate. }
  simpl in Hnd. apply NoDup_cons in Hnd as [Hfresh Hnd]. simpl in Hv.
  destruct (validateValue sch (value !! key)) as [ov|c] eqn:Hout.
  - assert (passes value (key, sch)) as Hp by (by exists ov).
    apply firstViolation_later; [done|].
    destruct ov as [v|].
    + apply IH in Hv; [|done].
      eapply firstViolation_agree; [|exact Hv]. intros k Hk.
      apply lookup_insert_ne. by intros ->.
    + apply IH in Hv; [|done].
      eapply firstViolation_agree; [|exact Hv]. intros k Hk.
      apply lookup_delete_ne. by intros ->.
  - injection Hv as <-. exists [], sch, rest. simpl. by repeat split.
Qed.

(** When the key loop succeeds every field passed. *)
Lemma validateKeys_success keys (value value' : JsObject) :
  NoDup keys.*1 → validateKeys keys value = inr value' →
  Forall (passes value) keys.
Proof.
  revert value. induction keys as [|[key sch] rest IH]; intros value Hnd Hv.
  { constructor. }
  simpl in Hnd. apply NoDup_cons in Hnd as [Hfresh Hnd]. simpl in Hv.
  destruct (validateValue sch (value !! key)) as [ov|c] eqn:Hout; [|discriminate].
  constructor; [by exists ov|].
  destruct ov as [v|]; apply IH in Hv; try done.
  - apply Forall_forall. intros ks Hin.
    rewrite Forall_forall in Hv. specialize (Hv ks Hin). revert Hv.
    apply passes_agree. apply lookup_insert_ne. intros Heq.
    apply Hfresh. rewrite Heq. by apply list_elem_of_fmap_2.
  - apply Forall_forall. intros ks Hin.
    rewrite Forall_forall in Hv. specialize (Hv ks Hin). revert Hv.
    apply passes_agree. apply lookup_delete_ne. intros Heq.
    apply Hfresh. rewrite Heq. by apply list_elem_of_fmap_2.
Qed.

(** A column outside the schema goes through the key loop untouched. *)
Lemma validateKeys_insert_unknown keys (value : JsObject) k v :
  k ∉ keys.*1 →
  validateKeys keys (<[k := v]> value) =
    match validateKeys keys value with
    | inl d => inl d
    | inr value' => inr (<[k := v]> value')
    end.
Proof.
  revert value. induction keys as [|[key sch] rest IH]; intros value Hk; [done|].
  simpl in Hk. apply not_elem_of_cons in Hk as [Hne Hk]. simpl.
  rewrite lookup_insert_ne by done.
  destruct (validateValue sch (value !! key)) as [[w|]|c]; [| |done].
  - rewrite insert_insert_ne by done. by apply IH.
  - rewrite delete_insert_ne by done. by apply IH.
Qed.

Lemma stripUnknownKeys_insert_unknown keys (value : JsObject) k v :
  k ∉ keys.*1 → stripUnknownKeys keys (<[k := v]> value) = stripUnknownKeys keys value.
Proof.
  intros Hk. unfold stripUnknownKeys. apply map_eq. intros i.
  apply option_eq. intros x. rewrite !map_lookup_filter_Some. simpl.
  destruct (decide (i = k)) as [->|Hne].
  - split; intros [_ ?]; done.
  - by rewrite lookup_insert_ne.
Qed.

Lemma stripUnknownKeys_dom keys (value : JsObject) :
  dom (stripUnknownKeys keys value) ⊆ list_to_set keys.*1.
Proof.
  intros k [x Hx]%elem_of_dom. apply map_lookup_filter_Some in Hx as [_ Hin].
  by apply elem_of_list_to_set.
Qed.

End Facts.

Lemma propertySchema_NoDup : NoDup Server.propertySchema.*1.
Proof. apply (bool_decide_unpack _). by vm_compute. Qed.

End JoiFacts.

(** ** Validation over the store *)

Module StoreFacts.
Import Joi JoiStore.

Section Facts.
Context `{NumberSyntax}.

Lemma alter_at (σ : Store) l (o : JsObject) f :
  σ !! l = Some o → alter f l σ = <[l := f o]> σ.
Proof.
  intros Hl. apply map_eq. intros i. destruct (decide (l = i)) as [<-|Hne].
  - by rewrite lookup_alter_eq, lookup_insert_eq, Hl.
  - by rewrite lookup_alter_ne, lookup_insert_ne.
Qed.

(** The key loop over the store writes to the clone only and computes what
    [validateKeys] computes on the clone's content. *)
Lemma validateKeysAt_refines keys clone (σ : Store) (o : JsObject) :
  σ !! clone = Some o →
  ∃ o', (validateKeysAt keys clone σ).2 = <[clone := o']> σ ∧
        match validateKeys keys o with
        | inl d => (validateKeysAt keys clone σ).1 = Some d
        | inr value => (validateKeysAt keys clone σ).1 = None ∧ o' = value
        end.
Proof.
  revert σ o. induction keys as [|[key sch] rest IH]; intros σ o Hl; simpl.
  { exists o. by rewrite insert_id. }
  rewrite Hl. simpl.
  destruct (validateValue sch (o !! key)) as [[v|]|c]; simpl.
  - destruct (IH (alter (insert key v) clone σ) (<[key := v]> o)) as (o' & Hσ & Hr).
    { by rewrite lookup_alter_eq, Hl. }
    exists o'. split; [|done].
    by rewrite Hσ, (alter_at _ _ o), insert_insert_eq.
  - destruct (IH (alter (delete key) clone σ) (delete key o)) as (o' & Hσ & Hr).
    { by rewrite lookup_alter_eq, Hl. }
    exists o'. split; [|done].
    by rewrite Hσ, (alter_at _ _ o), insert_insert_eq.
  - exists o. by rewrite insert_id.
Qed.

(** One validation: the store grows by the clone, and the result read back
    from the store is the result of [validate] on the record. *)
Lemma validateAt_refines keys data (σ : Store) (record : JsObject) :
  σ !! data = Some record →
  ∃ r value,
    validateAt keys data σ = Some (r, <[fresh (dom σ) := value]> σ) ∧
    resultOf (<[fresh (dom σ) := value]> σ) r = Some (validate keys record) ∧
    ∀ σ' : Store, (∀ l, l ∈ dom σ ∨ l = fresh (dom σ) →
                        σ' !! l = (<[fresh (dom σ) := value]> σ) !! l) →
         resultOf σ' r = Some (validate keys record).
Proof.
  intros Hd. unfold validateAt, validate. rewrite Hd.
  set (clone := fresh (dom σ)).
  destruct (validateKeysAt_refines keys clone (<[clone := record]> σ) record)
    as (o' & Hσ & Hr); [by rewrite lookup_insert_eq|].
  rewrite insert_insert_eq in Hσ.
  destruct (validateKeysAt keys clone (<[clone := record]> σ)) as [res σ'] eqn:Hrun.
  simpl in Hσ, Hr. subst σ'.
  destruct (validateKeys keys record) as [d|value].
  - subst res. exists (FailureAt {| details := [d] |}), o'. by repeat split.
  - destruct Hr as [-> ->].
    exists (SuccessAt clone), (stripUnknownKeys keys value). split; [|split].
    + f_equal. f_equal.
      by rewrite (alter_at _ _ value), insert_insert_eq by apply lookup_insert_eq.
    + simpl. by rewrite lookup_insert_eq.
    + intros σ' Hag. simpl. rewrite Hag by (by right). by rewrite lookup_insert_eq.
Qed.

End Facts.

End StoreFacts.

(** ** The Row Validator *)

Module RowValidator.
Import Joi JoiStore Server Spec JoiFacts StoreFacts.

Section Facts.
Context `{NumberSyntax}.

Lemma validate_cases (record : JsObject) :
  (∃ d, validate propertySchema record = Failure {| details := [d] |} ∧
        firstViolation propertySchema record d) ∨
  (∃ value, validate propertySchema record = Success value ∧
            Forall (passes record) propertySchema).
Proof.
  unfold validate.
  destruct (validateKeys propertySchema record) as [d|value] eqn:Hk.
  - left. exists d. split; [done|].
    by apply validateKeys_failure; [apply propertySchema_NoDup|].
  - right. eexists. split; [done|].
    by eapply validateKeys_success; [apply propertySchema_NoDup|].
Qed.

(** What the ['data'] handler does with a record that fails validation. *)
Lemma onData_failure st (record : JsObject) d :
  validate propertySchema record = Failure {| details := [d] |} →
  onData st record =
    {| rowIndex := S (rowIndex st);
       results := results st;
       errors := errors st ++
         [ {| row := S (rowIndex st); data := record; error := message d |} ] |}.
Proof. intros Hv. unfold onData. by rewrite Hv. Qed.

Lemma firstViolation_unique (record : JsObject) d d' :
  firstViolation propertySchema record d →
  firstViolation propertySchema record d' → d = d'.
Proof.
  intros Hd Hd'.
  destruct (validate_cases record) as [(d0 & Hv & _)|(value & Hv & Hall)].
  - clear Hv d0.
    destruct Hd as (b & sch & a & Hs & Hb & Hi).
    destruct Hd' as (b' & sch' & a' & Hs' & Hb' & Hi').
    assert (∀ b sch a (d : Detail) b' sch' a' (d' : Detail),
      propertySchema = b ++ (path d, sch) :: a →
      propertySchema = b' ++ (path d', sch') :: a' →
      Forall (passes record) b →
      validateValue sch' (record !! path d') = Invalid (code d') →
      length b' < length b → False) as Hlt.
    { clear. intros b sch a d b' sch' a' d' Hs Hs' Hb Hi' Hlen.
      assert (b !! length b' = Some (path d', sch')) as Hin.
      { rewrite <- (lookup_app_l b ((path d, sch) :: a)) by done.
        rewrite <- Hs, Hs'. by rewrite list_lookup_middle. }
      rewrite Forall_lookup in Hb. destruct (Hb _ _ Hin) as [v Hv]. simpl in Hv.
      congruence. }
    destruct (lt_eq_lt_dec (length b) (length b')) as [[Hl|Heq]|Hl].
    + exfalso. eapply (Hlt b' sch' a' d' b sch a d); eauto.
    + assert (Some (path d, sch) = Some (path d', sch')) as Hsame.
      { rewrite <- (list_lookup_middle b a (path d, sch) (length b)) by done.
        rewrite <- Hs, Hs'. by apply list_lookup_middle. }
      injection Hsame as Hp ->. destruct d, d'. simpl in *. subst. congruence.
    + exfalso. eapply (Hlt b sch a d b' sch' a' d'); eauto.
  - destruct Hd as (b & sch & a & Hs & _ & Hi).
    rewrite Hs in Hall. apply Forall_app in Hall as [_ Hall].
    apply Forall_cons in Hall as [[v Hpass] _]. simpl in Hpass. congruence.
Qed.

Lemma validateKeys_agree (K : list string) keys (r r' : JsObject) :
  keys.*1 ⊆ K → (∀ k, k ∈ K → r !! k = r' !! k) →
  match validateKeys keys r, validateKeys keys r' with
  | inl d, inl d' => d = d'
  | inr v, inr v' => ∀ k, k ∈ K → v !! k = v' !! k
  | _, _ => False
  end.
Proof.
  revert r r'. induction keys as [|[key sch] rest IH]; intros r r' HK Hag; simpl.
  { done. }
  assert (key ∈ K) as Hkey by (apply HK; simpl; left).
  assert (rest.*1 ⊆ K) as Hrest by (intros k Hk; apply HK; simpl; by right).
  rewrite <- (Hag key Hkey).
  destruct (validateValue sch (r !! key)) as [[v|]|c]; [| |done].
  - apply IH; [done|]. intros k Hk. destruct (decide (key = k)) as [->|Hne].
    + by rewrite !lookup_insert_eq.
    + rewrite !lookup_insert_ne by done. by apply Hag.
  - apply IH; [done|]. intros k Hk. destruct (decide (key = k)) as [->|Hne].
    + by rewrite !lookup_delete_eq.
    + rewrite !lookup_delete_ne by done. by apply Hag.
Qed.

Lemma stripUnknownKeys_lookup keys (value : JsObject) k :
  k ∈ keys.*1 → stripUnknownKeys keys value !! k = value !! k.
Proof.
  intros Hk. apply option_eq. intros x. unfold stripUnknownKeys.
  rewrite map_lookup_filter_Some. simpl. split; [by intros [? _]|done].
Qed.

Lemma stripUnknownKeys_lookup_unknown keys (value : JsObject) k :
  k ∉ keys.*1 → stripUnknownKeys keys value !! k = None.
Proof.
  intros Hk. unfold stripUnknownKeys. apply map_lookup_filter_None. right.
  intros x _. simpl. done.
Qed.

(** Validation sees the declared columns only. *)
Lemma validate_strip keys (record : JsObject) :
  validate keys (stripUnknownKeys keys record) = validate keys record.
Proof.
  unfold validate.
  pose proof (validateKeys_agree keys.*1 keys (stripUnknownKeys keys record) record)
    as Hag.
  destruct (validateKeys keys (stripUnknownKeys keys record)) as [d|v],
           (validateKeys keys record) as [d'|v'].
  - rewrite Hag; [done|done|]. intros k Hk. by apply stripUnknownKeys_lookup.
  - destruct Hag; [done|]. intros k Hk. by apply stripUnknownKeys_lookup.
  - destruct Hag; [done|]. intros k Hk. by apply stripUnknownKeys_lookup.
  - f_equal. apply map_eq. intros k. destruct (decide (k ∈ keys.*1)) as [Hk|Hk].
    + rewrite !stripUnknownKeys_lookup by done. apply Hag; [done| |done].
      intros k' Hk'. by apply stripUnknownKeys_lookup.
    + by rewrite !stripUnknownKeys_lookup_unknown.
Qed.

Lemma badPrice_invalid (record : JsObject) :
  badPrice record →
  ∃ c, validateValue (required (number_ [Positive])) (record !! "price") = Invalid c.
Proof.
  intros [Hnone|(s & Hs & Hbad)].
  - rewrite Hnone. by exists AnyRequired.
  - rewrite Hs. simpl. destruct Hbad as [->|(q & -> & Hq)].
    + by exists NumberBase.
    + unfold numberValue.
      destruct (Qltb _ q || Qltb q _); [by exists NumberUnsafe|].
      simpl. destruct (Z.ltb_spec 0 (Qnum q)) as [Hpos|_]; [|by exists NumberPositive].
      exfalso. unfold Qle in Hq. simpl in Hq. lia.
Qed.

(** The shape of a first violation in the three-field schema. *)
Lemma firstViolation_propertySchema (record : JsObject) d :
  firstViolation propertySchema record d →
  (path d = "title" ∧ ¬ fieldPasses "title" record) ∨
  (path d = "price" ∧ fieldPasses "title" record ∧
   validateValue (required (number_ [Positive])) (record !! "price") = Invalid (code d)) ∨
  (path d = "projectId" ∧ fieldPasses "title" record ∧
   passes record ("price", required (number_ [Positive]))).
Proof.
  intros (before & sch & after & Hs & Hb & Hi).
  assert (∀ sch', ("title", sch') ∈ propertySchema →
                  sch' = required (string_ [Trim; Min 1; Max 200])) as Htitle.
  { intros sch' Hin. unfold propertySchema in Hin.
    repeat (apply elem_of_cons in Hin as [Hin|Hin]; [by simplify_eq|]).
    by apply elem_of_nil in Hin. }
  assert (("title", required (string_ [Trim; Min 1; Max 200])) ∈ propertySchema)
    as Hin by (unfold propertySchema; left).
  destruct d as [p c]. simpl in *. unfold propertySchema in Hs.
  destruct before as [|x [|y [|z before]]]; simplify_eq/=.
  - left. split; [done|].
    intros (sch' & Hin' & v & Hv). apply Htitle in Hin' as ->. simpl in Hv.
    congruence.
  - right. left. split; [done|].
    apply Forall_cons in Hb as [Hb _]. split; [|done]. by eexists.
  - right. right. split; [done|].
    apply Forall_cons in Hb as [Hb1 Hb]. apply Forall_cons in Hb as [Hb2 _].
    split; [|done]. by eexists.
  - destruct before; simplify_eq/=.
Qed.

(** C4, as amended.  A record whose price cell is absent, not numeric or not
    above zero is always turned into a row error by the ['data'] handler and
    never reaches the valid buffer.  The message of that row error cites the
    price field when the title field is valid; when the title is invalid as
    well, the title is the first failing field and the message is the
    title's. *)
Theorem bad_price_yields_row_error st (record : JsObject) :
  badPrice record →
  ∃ msg,
    onData st record =
      {| rowIndex := S (rowIndex st);
         results := results st;
         errors := errors st ++
           [ {| row := S (rowIndex st); data := record; error := msg |} ] |} ∧
    (fieldPasses "title" record → cites "price" msg) ∧
    (¬ fieldPasses "title" record → cites "title" msg).
Proof.
  intros Hbad. destruct (badPrice_invalid record Hbad) as [c Hc].
  destruct (validate_cases record) as [(d & Hv & Hd)|(value & _ & Hall)].
  - exists (message d). split; [by apply onData_failure|].
    apply firstViolation_propertySchema in Hd
      as [[Hp Hno]|[(Hp & Hyes & _)|(_ & _ & v & Hv')]].
    + split; [done|]. intros _. exists (code d). by destruct d; simplify_eq/=.
    + split; [|done]. intros _. exists (code d). by destruct d; simplify_eq/=.
    + simpl in Hv'. congruence.
  - unfold propertySchema in Hall.
    apply Forall_cons in Hall as [_ Hall]. apply Forall_cons in Hall as [[v Hv'] _].
    simpl in Hv'. congruence.
Qed.

(** C6, as amended.  A record that fails validation gets exactly one
    message: the error holds a single detail, which is the first rule
    violation when the fields are taken in declaration order (title, price,
    projectId), it is the only such violation, and its message is the one
    stored in the row error.  A record that validates has no failing field.
    In particular a record whose title is empty (or blank) gets the title's
    not-allowed-to-be-empty message whatever its other fields hold; the
    title's is-required message is the one for a missing title column. *)
Theorem first_failing_field_is_reported st (record : JsObject) :
  (∀ e, validate propertySchema record = Failure e →
     ∃ d, details e = [d] ∧
          firstViolation propertySchema record d ∧
          (∀ d', firstViolation propertySchema record d' → d' = d) ∧
          errors (onData st record) = errors st ++
            [ {| row := S (rowIndex st); data := record; error := message d |} ]) ∧
  (∀ value, validate propertySchema record = Success value →
     Forall (passes record) propertySchema) ∧
  (∀ s, record !! "title" = Some (Js.Str s) → Js.trim s = "" →
     validate propertySchema record =
       Failure {| details := [ {| path := "title"; code := StringEmpty |} ] |}) ∧
  (record !! "title" = None →
     validate propertySchema record =
       Failure {| details := [ {| path := "title"; code := AnyRequired |} ] |}).
Proof.
  split; [|split; [|split]].
  - intros e He.
    destruct (validate_cases record) as [(d & Hv & Hd)|(value & Hv & _)];
      [|congruence].
    exists d. rewrite Hv in He. injection He as <-. split; [done|].
    split; [done|]. split.
    + intros d' Hd'. by apply (firstViolation_unique record).
    + by rewrite (onData_failure st record d).
  - intros value Hv.
    destruct (validate_cases record) as [(d & Hv' & _)|(value' & _ & Hall)];
      [congruence|done].
  - intros s Hs Hblank. unfold validate. simpl. rewrite Hs. simpl.
    rewrite Hblank. by rewrite decide_True.
  - intros Hnone. unfold validate. simpl. by rewrite Hnone.
Qed.

(** C8.  A column outside the declared schema is ignored: adding it to a
    record (with any cell) changes neither the failure nor the validated
    value, so it never makes a record fail; the validated value never holds
    it, its keys are among title, price and projectId; and validation of a
    record is validation of its declared columns alone. *)
Theorem unknown_columns_are_stripped (record : JsObject) column cell :
  column ∉ ["title"; "price"; "projectId"] →
  validate propertySchema (<[column := cell]> record) =
    validate propertySchema record ∧
  (∀ value, validate propertySchema (<[column := cell]> record) = Success value →
     value !! column = None ∧
     dom value ⊆ ({["title"; "price"; "projectId"]} : gset string)) ∧
  validate propertySchema record =
    validate propertySchema
      (filter (λ kv, kv.1 ∈ ["title"; "price"; "projectId"]) record).
Proof.
  intros Hcol. split; [|split].
  - unfold validate. rewrite validateKeys_insert_unknown by done.
    destruct (validateKeys propertySchema record) as [d|value]; [done|].
    by rewrite stripUnknownKeys_insert_unknown.
  - intros value Hv. unfold validate in Hv.
    destruct (validateKeys propertySchema _) as [d|value']; [done|].
    injection Hv as <-. split.
    + by apply stripUnknownKeys_lookup_unknown.
    + etrans; [apply stripUnknownKeys_dom|]. simpl. set_solver.
  - symmetry. apply (validate_strip propertySchema).
Qed.

(** C9.  Validation has no effect on the objects it is given and keeps no
    state: run twice in a row on the same reference, it returns the same
    result both times (the same failure, or validated values with the same
    content), that result being a function of the record's content alone;
    the record and every other object of the store are left as they were,
    and the second run does not disturb the result of the first. *)
Theorem validation_is_repeatable (σ : Store) data (record : JsObject) :
  σ !! data = Some record →
  ∃ r1 σ1 r2 σ2,
    validateAt propertySchema data σ = Some (r1, σ1) ∧
    validateAt propertySchema data σ1 = Some (r2, σ2) ∧
    resultOf σ1 r1 = Some (validate propertySchema record) ∧
    resultOf σ2 r2 = Some (validate propertySchema record) ∧
    resultOf σ2 r1 = Some (validate propertySchema record) ∧
    (∀ l, l ∈ dom σ → σ1 !! l = σ !! l ∧ σ2 !! l = σ !! l).
Proof.
  intros Hd.
  destruct (validateAt_refines propertySchema data σ record Hd)
    as (r1 & v1 & Hrun1 & Hres1 & Hframe1).
  set (c1 := fresh (dom σ)) in *. set (σ1 := <[c1 := v1]> σ) in *.
  assert (c1 ∉ dom σ) as Hc1 by apply is_fresh.
  assert (∀ l, l ∈ dom σ → σ1 !! l = σ !! l) as Hold1.
  { intros l Hl. apply lookup_insert_ne. by intros <-. }
  assert (σ1 !! data = Some record) as Hd1.
  { rewrite Hold1; [done|]. apply elem_of_dom. by eexists. }
  destruct (validateAt_refines propertySchema data σ1 record Hd1)
    as (r2 & v2 & Hrun2 & Hres2 & _).
  set (c2 := fresh (dom σ1)) in *. set (σ2 := <[c2 := v2]> σ1) in *.
  assert (c2 ∉ dom σ1) as Hc2 by apply is_fresh.
  assert (∀ l, l ∈ dom σ1 → σ2 !! l = σ1 !! l) as Hold2.
  { intros l Hl. apply lookup_insert_ne. by intros <-. }
  assert (dom σ ⊆ dom σ1) as Hsub.
  { unfold σ1. rewrite dom_insert. set_solver. }
  exists r1, σ1, r2, σ2. repeat split; try done.
  - apply Hframe1. intros l [Hl| ->]; apply Hold2.
    + by apply Hsub.
    + unfold σ1. rewrite dom_insert. set_solver.
  - by apply Hold1.
  - rewrite Hold2 by (by apply Hsub). by apply Hold1.
Qed.

End Facts.

Lemma bad_price_yields_row_error_witness :
  ∃ msg,
    @onData Sample.syntax initialState (Sample.row "Ok" "-5" "p1") =
      {| rowIndex := 1; results := [];
         errors := [ {| row := 1; data := Sample.row "Ok" "-5" "p1"; error := msg |} ] |} ∧
    cites "price" msg.
Proof.
  destruct (@bad_price_yields_row_error Sample.syntax initialState
              (Sample.row "Ok" "-5" "p1")) as (msg & Hrun & Hprice & _).
  - right. exists "-5". split; [reflexivity|]. right.
    exists (inject_Z (-5)). split; [reflexivity|]. unfold Qle. simpl. lia.
  - exists msg. split; [exact Hrun|]. apply Hprice.
    eexists. split; [left|]. eexists. vm_compute. reflexivity.
Defined.

(** C4 as the specification states it fails: with an empty title and a
    price of -5 the row error cites the title, not the price. *)
Lemma bad_price_message_counterexample :
  @badPrice Sample.syntax (Sample.row "" "-5" "p1") ∧
  ∃ msg,
    errors (@onData Sample.syntax initialState (Sample.row "" "-5" "p1")) =
      [ {| row := 1; data := Sample.row "" "-5" "p1"; error := msg |} ] ∧
    msg = Js.dquote +:+ "title" +:+ Js.dquote +:+ " is not allowed to be empty" ∧
    ¬ cites "price" msg.
Proof.
  split.
  - right. exists "-5". split; [reflexivity|]. right.
    exists (inject_Z (-5)). split; [reflexivity|]. unfold Qle. simpl. lia.
  - eexists. split; [vm_compute; reflexivity|]. split; [vm_compute; reflexivity|].
    intros [c Hc]. destruct c; vm_compute in Hc; discriminate Hc.
Qed.

Lemma first_failing_field_is_reported_witness :
  @validate Sample.syntax propertySchema (Sample.row "" "-5" "") =
    Failure {| details := [ {| path := "title"; code := StringEmpty |} ] |} ∧
  ∃ d, firstViolation (H:=Sample.syntax) propertySchema (Sample.row "" "-5" "") d ∧
       errors (@onData Sample.syntax initialState (Sample.row "" "-5" "")) =
         [ {| row := 1; data := Sample.row "" "-5" ""; error := message d |} ].
Proof.
  destruct (@first_failing_field_is_reported Sample.syntax initialState
              (Sample.row "" "-5" "")) as (Hfail & _ & Hblank & _).
  assert (@validate Sample.syntax propertySchema (Sample.row "" "-5" "") =
            Failure {| details := [ {| path := "title"; code := StringEmpty |} ] |})
    as Hv by (apply (Hblank ""); reflexivity).
  split; [exact Hv|].
  destruct (Hfail _ Hv) as (d & _ & Hd & _ & Herr). exists d. by split.
Defined.

(** C6 as the specification states it fails: the record of the line
    [,100,p1] has an empty title, and its message is not the title's
    is-required message. *)
Lemma empty_title_message_counterexample :
  Sample.row "" "100" "p1" !! "title" = Some (Js.Str "") ∧
  ∃ msg,
    errors (@onData Sample.syntax initialState (Sample.row "" "100" "p1")) =
      [ {| row := 1; data := Sample.row "" "100" "p1"; error := msg |} ] ∧
    msg = Js.dquote +:+ "title" +:+ Js.dquote +:+ " is not allowed to be empty" ∧
    msg ≠ message {| path := "title"; code := AnyRequired |}.
Proof.
  split; [reflexivity|].
  eexists. split; [vm_compute; reflexivity|]. split; [vm_compute; reflexivity|].
  intros Hc. vm_compute in Hc. discriminate Hc.
Qed.

Lemma unknown_columns_are_stripped_witness :
  @validate Sample.syntax propertySchema
    (<["notes" := Js.Str "sea view"]> (Sample.row "Villa" "500000" "p1")) =
  @validate Sample.syntax propertySchema (Sample.row "Villa" "500000" "p1").
Proof.
  apply (@unknown_columns_are_stripped Sample.syntax
           (Sample.row "Villa" "500000" "p1") "notes" (Js.Str "sea view")).
  apply (bool_decide_unpack _). vm_compute. reflexivity.
Defined.

Lemma validation_is_repeatable_witness :
  ∃ r1 σ1 r2 σ2,
    @validateAt Sample.syntax propertySchema 0
      (<[0 := Sample.row " Villa " "500000" "p1"]> ∅) = Some (r1, σ1) ∧
    @validateAt Sample.syntax propertySchema 0 σ1 = Some (r2, σ2) ∧
    resultOf σ1 r1 = resultOf σ2 r2 ∧
    σ2 !! 0 = Some (Sample.row " Villa " "500000" "p1").
Proof.
  destruct (@validation_is_repeatable Sample.syntax
              (<[0 := Sample.row " Villa " "500000" "p1"]> ∅) 0
              (Sample.row " Villa " "500000" "p1"))
    as (r1 & σ1 & r2 & σ2 & H1 & H2 & H3 & H4 & _ & Hframe).
  - reflexivity.
  - exists r1, σ1, r2, σ2. repeat split; [exact H1|exact H2|congruence|].
    destruct (Hframe 0) as [_ ->]; [|reflexivity].
    apply elem_of_dom. eexists. reflexivity.
Defined.

End RowValidator.

(** ** The Import Coordinator *)

Module Coordinator.
Import Joi Server Spec JoiFacts RowValidator.

Section Facts.
Context `{NumberSyntax} `{Csv.Tokenizer} `{WallClock}.

(** *** The stream *)

Lemma foldl_onData st records :
  foldl onData st records =
    {| rowIndex := rowIndex st + length records;
       results := results st ++ validValues records;
       errors := errors st ++ rowErrorsFrom (rowIndex st) records |}.
Proof.
  revert st. induction records as [|r rest IH]; intros [n rs es]; simpl.
  { by rewrite Nat.add_0_r, !app_nil_r. }
  rewrite IH. unfold onData. simpl.
  destruct (validate propertySchema r) as [e|value]; simpl;
    rewrite <- ?app_assoc; simpl; f_equal; lia.
Qed.

Lemma consume_spec records :
  consume records =
    {| rowIndex := length records;
       results := validValues records;
       errors := rowErrorsFrom 0 records |}.
Proof. unfold consume. by rewrite foldl_onData. Qed.

Lemma processCSVStream_spec bytes lines :
  Csv.csvLines bytes = Some lines →
  processCSVStream bytes =
    Some (validValues (Csv.rows lines), rowErrorsFrom 0 (Csv.rows lines)).
Proof. intros Hl. unfold processCSVStream. by rewrite Hl, consume_spec. Qed.

Lemma processCSVStream_inv bytes valid errs :
  processCSVStream bytes = Some (valid, errs) →
  ∃ lines, Csv.csvLines bytes = Some lines ∧
           valid = validValues (Csv.rows lines) ∧
           errs = rowErrorsFrom 0 (Csv.rows lines).
Proof.
  unfold processCSVStream. destruct (Csv.csvLines bytes) as [lines|]; [|done].
  rewrite consume_spec. simpl. intros [= <- <-]. by exists lines.
Qed.

Lemma validValues_length records :
  length (validValues records) = length (filter (λ r, accepted r) records).
Proof.
  induction records as [|r rest IH]; [done|]. simpl.
  destruct (validate propertySchema r) eqn:Hv.
  - rewrite filter_cons_False; [apply IH|].
    unfold accepted. rewrite Hv. simpl. tauto.
  - rewrite filter_cons_True; [cbn [length]; f_equal; apply IH|].
    unfold accepted. rewrite Hv. simpl. tauto.
Qed.

Lemma rowErrorsFrom_length n records :
  length (rowErrorsFrom n records) = length (filter (λ r, ¬ accepted r) records).
Proof.
  revert n. induction records as [|r rest IH]; intros n; [done|]. simpl.
  destruct (validate propertySchema r) eqn:Hv.
  - rewrite filter_cons_True; [cbn [length]; f_equal; apply IH|].
    unfold accepted. rewrite Hv. simpl. tauto.
  - rewrite filter_cons_False; [apply IH|].
    unfold accepted. rewrite Hv. simpl. tauto.
Qed.

Lemma partition_length n records :
  length (validValues records) + length (rowErrorsFrom n records) = length records.
Proof.
  revert n. induction records as [|r rest IH]; intros n; [done|]. simpl.
  specialize (IH (S n)). destruct (validate propertySchema r); simpl; lia.
Qed.

Lemma rowErrorsFrom_elem n records e :
  e ∈ rowErrorsFrom n records →
  n < row e ≤ n + length records ∧
  records !! (row e - S n) = Some (data e) ∧
  accepted (data e) = false.
Proof.
  revert n. induction records as [|r rest IH]; intros n He; simpl in He.
  { by apply elem_of_nil in He. }
  assert (e ∈ rowErrorsFrom (S n) rest →
          n < row e ≤ n + length (r :: rest) ∧
          (r :: rest) !! (row e - S n) = Some (data e) ∧
          accepted (data e) = false) as Hrest.
  { intros He'. apply IH in He' as (Hr & Hl & Ha). simpl. split; [lia|].
    split; [|done]. replace (row e - S n) with (S (row e - S (S n))) by lia.
    done. }
  destruct (validate propertySchema r) as [er|value] eqn:Hv; [|by apply Hrest].
  apply elem_of_cons in He as [->|He]; [|by apply Hrest].
  simpl. split; [lia|]. rewrite Nat.sub_diag. split; [done|].
  unfold accepted. by rewrite Hv.
Qed.

Lemma rowErrorsFrom_complete n records i r :
  records !! i = Some r → accepted r = false →
  ∃ e, e ∈ rowErrorsFrom n records ∧ row e = S (n + i) ∧ data e = r.
Proof.
  revert n i. induction records as [|r0 rest IH]; intros n i Hi Ha; [done|].
  destruct i as [|i]; simpl in Hi.
  - injection Hi as ->. simpl. unfold accepted in Ha.
    destruct (validate propertySchema r) as [er|value]; [|done].
    eexists. split; [left|]. simpl. split; [f_equal; lia|done].
  - destruct (IH (S n) i Hi Ha) as (e & He & Hr & Hd).
    exists e. split; [|split; [lia|done]]. simpl.
    destruct (validate propertySchema r0); [by right|done].
Qed.

Lemma rowErrorsFrom_sorted n records :
  StronglySorted lt (row <$> rowErrorsFrom n records).
Proof.
  revert n. induction records as [|r rest IH]; intros n; simpl.
  { constructor. }
  destruct (validate propertySchema r); [|apply IH].
  simpl. constructor; [apply IH|].
  apply Forall_forall. intros k Hk.
  apply list_elem_of_fmap in Hk as (e & -> & He).
  apply rowErrorsFrom_elem in He. lia.
Qed.

Lemma rows_length headers (dataLines : list (list string)) :
  length (Csv.rows (headers :: dataLines)) = length dataLines.
Proof. simpl. by rewrite length_fmap. Qed.

(** *** The handler *)

Lemma imapM_clock {A B} (f : nat → A → M B) (g : Z → nat → A → B) index l w :
  (∀ i x w0, f i x w0 = (g (clockAt (reads w0)) i x,
                          {| reads := S (reads w0); trace := trace w0 |})) →
  imapM f index l w = (stamped g index (reads w) l, after (length l) [] w).
Proof.
  intros Hf. revert index w. induction l as [|x l IH]; intros index w; simpl.
  { unfold mret, M_ret, after. destruct w. simpl.
    by rewrite Nat.add_0_r, app_nil_r. }
  unfold mbind, M_bind. rewrite Hf. rewrite IH. unfold mret, M_ret, after. simpl.
  rewrite !app_nil_r. f_equal. f_equal. lia.
Qed.

Lemma stamped_length {A B} (g : Z → nat → A → B) index n l :
  length (stamped g index n l) = length l.
Proof. revert index n. induction l; intros; simpl; by f_equal. Qed.

Lemma handler_no_file req w :
  file req = None →
  handler req w = (rejected "No CSV file provided" None, after 1 [] w).
Proof.
  intros Hf. unfold handler, mbind, M_bind, now. rewrite Hf.
  unfold mret, M_ret, after. by rewrite app_nil_r, Nat.add_1_r.
Qed.

Lemma handler_empty req f w :
  file req = Some f → buffer f = None ∨ buffer f = Some [] →
  handler req w = (rejected "Empty CSV file provided" None, after 1 [] w).
Proof.
  intros Hf Hb. unfold handler, mbind, M_bind, now. rewrite Hf.
  unfold mret, M_ret, after. rewrite app_nil_r, Nat.add_1_r.
  by destruct Hb as [-> | ->].
Qed.

Lemma handler_decode_error req f broker bytes w :
  file req = Some f → buffer f = Some bytes → bytes ≠ [] →
  user req = Some broker →
  processCSVStream bytes = None →
  handler req w = (internalError, after 1 [CsvDecode bytes] w).
Proof.
  intros Hf Hb Hne Hu Hp. unfold handler, mbind, M_bind, now. rewrite Hf, Hb, Hu.
  destruct bytes as [|b bytes]; [done|].
  unfold decode, emit, mbind, M_bind, mret, M_ret, after. simpl. rewrite Hp.
  by rewrite Nat.add_1_r.
Qed.

Lemma handler_no_valid req f broker bytes errs w :
  file req = Some f → buffer f = Some bytes → bytes ≠ [] →
  user req = Some broker →
  processCSVStream bytes = Some ([], errs) →
  handler req w =
    (rejected "No valid properties found in CSV" (Some errs),
     after 1 [CsvDecode bytes] w).
Proof.
  intros Hf Hb Hne Hu Hp. unfold handler, mbind, M_bind, now. rewrite Hf, Hb, Hu.
  destruct bytes as [|b bytes]; [done|].
  unfold decode, emit, mbind, M_bind, mret, M_ret, after. simpl. rewrite Hp.
  by rewrite Nat.add_1_r.
Qed.

Lemma handler_completed req f broker bytes valid errs w :
  file req = Some f → buffer f = Some bytes → bytes ≠ [] →
  user req = Some broker →
  processCSVStream bytes = Some (valid, errs) → valid ≠ [] →
  let n := length valid in
  let batch := stamped (withBroker (id broker)) 0 (S (reads w)) valid in
  handler req w =
    (completed n (length (stamped withId 0 (S (reads w) + n) batch)) errs
       (clockAt (S (reads w) + n + n) - clockAt (reads w)),
     after (2 + n + n) [CsvDecode bytes; InsertMany batch] w).
Proof.
  intros Hf Hb Hne Hu Hp Hvalid n batch.
  unfold handler. unfold mbind at 1, M_bind at 1, now at 1. rewrite Hf, Hb, Hu.
  destruct bytes as [|b bytes]; [done|].
  unfold mbind at 1, M_bind at 1.
  unfold decode, emit. unfold mbind at 1, M_bind at 1, mret at 1, M_ret at 1.
  rewrite Hp. rewrite decide_False by (by destruct valid).
  unfold mbind at 1, M_bind at 1.
  rewrite (imapM_clock _ (withBroker (id broker))) by done.
  unfold mbind at 1, M_bind at 1.
  unfold insertMany, emit. unfold mbind at 1, M_bind at 1.
  rewrite (imapM_clock _ withId) by done.
  unfold mbind at 1, M_bind at 1, now, mret, M_ret, after, completed. simpl.
  subst n batch. rewrite !app_nil_r, !stamped_length, <- app_assoc. simpl.
  repeat (f_equal; try lia).
Qed.

Lemma handler_cases req broker w :
  user req = Some broker →
  (file req = None ∧
   handler req w = (rejected "No CSV file provided" None, after 1 [] w)) ∨
  (∃ f, file req = Some f ∧ (buffer f = None ∨ buffer f = Some []) ∧
        handler req w = (rejected "Empty CSV file provided" None, after 1 [] w)) ∨
  (∃ f bytes, file req = Some f ∧ buffer f = Some bytes ∧ bytes ≠ [] ∧
     ((processCSVStream bytes = None ∧
       handler req w = (internalError, after 1 [CsvDecode bytes] w)) ∨
      (∃ errs, processCSVStream bytes = Some ([], errs) ∧
         handler req w =
           (rejected "No valid properties found in CSV" (Some errs),
            after 1 [CsvDecode bytes] w)) ∨
      (∃ valid errs, processCSVStream bytes = Some (valid, errs) ∧ valid ≠ [] ∧
         handler req w =
           (completed (length valid) (length valid) errs
              (clockAt (S (reads w) + length valid + length valid)
               - clockAt (reads w)),
            after (2 + length valid + length valid)
              [CsvDecode bytes;
               InsertMany (stamped (withBroker (id broker)) 0 (S (reads w)) valid)]
              w)))).
Proof.
  intros Hu.
  destruct (file req) as [f|] eqn:Hf; [|left; split; [done|by apply handler_no_file]].
  right. destruct (buffer f) as [bytes|] eqn:Hb.
  2:{ left. exists f. split; [done|]. split; [by left|].
      apply (handler_empty req f); [done|by left]. }
  destruct (decide (bytes = [])) as [->|Hne].
  { left. exists f. split; [done|]. split; [by right|].
    apply (handler_empty req f); [done|by right]. }
  right. exists f, bytes. do 3 (split; [done|]).
  destruct (processCSVStream bytes) as [[valid errs]|] eqn:Hp.
  - destruct (decide (valid = [])) as [->|Hv].
    + right. left. exists errs. split; [done|].
      by apply (handler_no_valid req f broker).
    + right. right. exists valid, errs. do 2 (split; [done|]).
      rewrite (handler_completed req f broker bytes valid errs) by done.
      by rewrite !stamped_length.
  - left. split; [done|]. by apply (handler_decode_error req f broker).
Qed.

Lemma insertManySizes_app t t' :
  insertManySizes (t ++ t') = insertManySizes t ++ insertManySizes t'.
Proof. unfold insertManySizes, insertManyCalls. by rewrite omap_app, fmap_app. Qed.

(** C1, as amended.  When at least one data row of the file is valid (2500
    valid rows in particular), the coordinator consumes the whole stream
    first and then submits every validated record, with the broker id and a
    creation date attached, in a single [insertMany] call: the gateway is
    called exactly once, with a batch whose size is the number of valid
    rows.  No batch threshold is applied. *)
Theorem valid_rows_go_out_in_one_call req f bytes lines w :
  file req = Some f → buffer f = Some bytes → bytes ≠ [] →
  Csv.csvLines bytes = Some lines →
  0 < length (filter (λ r, accepted r) (Csv.rows lines)) →
  ∃ batch,
    trace (importProperties req w).2 =
      trace w ++ [CsvDecode bytes; InsertMany batch] ∧
    batch = stamped (withBroker "broker_123") 0 (S (reads w))
              (validValues (Csv.rows lines)) ∧
    insertManySizes (trace (importProperties req w).2) =
      insertManySizes (trace w) ++ [length (filter (λ r, accepted r) (Csv.rows lines))].
Proof.
  intros Hf Hb Hne Hl Hpos. rewrite <- validValues_length in *.
  eexists. unfold importProperties.
  rewrite (handler_completed (authenticateUser req) f _ bytes _ _ w Hf Hb Hne
             eq_refl (processCSVStream_spec bytes lines Hl))
    by (intros Hnil; rewrite Hnil in Hpos; simpl in Hpos; lia).
  simpl. split; [done|]. split; [done|].
  rewrite insertManySizes_app. f_equal. unfold insertManySizes. simpl.
  by rewrite stamped_length.
Qed.

(** C2.  Whenever the import returns a summary, its total is the sum of its
    two counts; the total is the number of decoded data rows, the failed
    count is the number of rows that failed validation, and the successful
    count is the number of records submitted to (and stored by) the
    gateway during the import. *)
Theorem summary_counts_add_up req w s :
  summary (importProperties req w).1 = Some s →
  totalProcessed s = successful s + failed s ∧
  ∃ f bytes lines t,
    file req = Some f ∧ buffer f = Some bytes ∧ Csv.csvLines bytes = Some lines ∧
    totalProcessed s = length (Csv.rows lines) ∧
    failed s = length (filter (λ r, ¬ accepted r) (Csv.rows lines)) ∧
    trace (importProperties req w).2 = trace w ++ t ∧
    successful s = sum_list (insertManySizes t).
Proof.
  unfold importProperties. intros Hs.
  destruct (handler_cases (authenticateUser req) _ w eq_refl)
    as [[_ Hr]|[(f & _ & _ & Hr)|(f & bytes & Hf & Hb & Hne &
         [[_ Hr]|[(errs & _ & Hr)|(valid & errs & Hp & Hv & Hr)]])]];
    rewrite Hr in Hs |- *; simpl in Hs; try discriminate.
  injection Hs as <-. simpl. split; [done|].
  apply processCSVStream_inv in Hp as (lines & Hl & -> & ->).
  exists f, bytes, lines. eexists. do 3 (split; [done|]).
  split; [apply partition_length|]. split; [apply rowErrorsFrom_length|].
  split; [done|]. unfold insertManySizes. simpl. rewrite stamped_length. lia.
Qed.

(** C3, as amended.  When every data row of the file fails validation the
    import is rejected with status 400 and the error "No valid properties
    found in CSV"; the rejection carries the accumulated row errors, one
    per data row, and no summary, so no successful or failed count is
    reported; the gateway is not called. *)
Theorem no_valid_row_is_rejected req f bytes lines w :
  file req = Some f → buffer f = Some bytes → bytes ≠ [] →
  Csv.csvLines bytes = Some lines →
  Forall (λ r, accepted r = false) (Csv.rows lines) →
  ∃ errs,
    importProperties req w =
      (rejected "No valid properties found in CSV" (Some errs),
       after 1 [CsvDecode bytes] w) ∧
    errs = rowErrorsFrom 0 (Csv.rows lines) ∧
    length errs = length (Csv.rows lines) ∧
    summary (importProperties req w).1 = None ∧
    insertManyCalls (trace (importProperties req w).2) = insertManyCalls (trace w).
Proof.
  intros Hf Hb Hne Hl Hall.
  assert (validValues (Csv.rows lines) = []) as Hnone.
  { induction (Csv.rows lines) as [|r rest IH]; [done|].
    apply Forall_cons in Hall as [Hr Hall]. simpl. unfold accepted in Hr.
    destruct (validate propertySchema r); [by apply IH|done]. }
  pose proof (processCSVStream_spec bytes lines Hl) as Hp. rewrite Hnone in Hp.
  exists (rowErrorsFrom 0 (Csv.rows lines)). unfold importProperties.
  rewrite (handler_no_valid (authenticateUser req) f _ bytes _ w Hf Hb Hne
             eq_refl Hp).
  split; [done|]. split; [done|]. split.
  - pose proof (partition_length 0 (Csv.rows lines)) as Hlen.
    rewrite Hnone in Hlen. done.
  - split; [done|]. simpl. unfold insertManyCalls. rewrite omap_app. simpl.
    by rewrite app_nil_r.
Qed.

(** C5.  Row numbers count data rows from 1.  The first line gives the
    headers and yields no record; each later line yields one record and
    advances the counter by one whether the record is valid or not.  A row
    error carries the position of its line among the data lines and that
    line's record; every invalid data line has its row error; and the row
    numbers of the error sequence are strictly increasing, so none is used
    twice. *)
Theorem row_numbers_count_data_rows bytes headers (dataLines : list (list string)) :
  Csv.csvLines bytes = Some (headers :: dataLines) →
  ∃ valid errs,
    processCSVStream bytes = Some (valid, errs) ∧
    length (Csv.rows (headers :: dataLines)) = length dataLines ∧
    (∀ st record, rowIndex (onData st record) = S (rowIndex st)) ∧
    rowIndex (consume (Csv.rows (headers :: dataLines))) = length dataLines ∧
    length valid + length errs = length dataLines ∧
    (∀ e, e ∈ errs →
       1 ≤ row e ≤ length dataLines ∧
       ∃ cells, dataLines !! (row e - 1) = Some cells ∧
                data e = Csv.writeRow headers cells ∧
                accepted (data e) = false) ∧
    (∀ i cells, dataLines !! i = Some cells →
       accepted (Csv.writeRow headers cells) = false →
       ∃ e, e ∈ errs ∧ row e = S i ∧ data e = Csv.writeRow headers cells) ∧
    StronglySorted lt (row <$> errs).
Proof.
  intros Hl. rewrite (processCSVStream_spec bytes _ Hl).
  eexists _, _. split; [done|]. split; [apply rows_length|].
  split.
  { intros st record. unfold onData. by destruct (validate propertySchema record). }
  split; [by rewrite consume_spec; apply rows_length|].
  split; [by rewrite partition_length; apply rows_length|].
  split; [|split; [|apply rowErrorsFrom_sorted]].
  - intros e He. apply rowErrorsFrom_elem in He as (Hr & Hi & Ha).
    rewrite rows_length in Hr. split; [lia|]. simpl in Hi.
    rewrite list_lookup_fmap in Hi.
    destruct (dataLines !! (row e - 1)) as [cells|]; [|done].
    exists cells. simpl in Hi. injection Hi as Hi. by rewrite <- Hi in *.
  - intros i cells Hi Ha.
    destruct (rowErrorsFrom_complete 0 (Csv.rows (headers :: dataLines)) i
                (Csv.writeRow headers cells)) as (e & He & Hr & Hd); [|done|].
    + simpl. by rewrite list_lookup_fmap, Hi.
    + by exists e.
Qed.

(** C7.  An upload of zero bytes is rejected with status 400 and the error
    "Empty CSV file provided": the decoder is not called, the gateway is
    not called, and the response has no summary. *)
Theorem empty_upload_is_rejected req f w :
  file req = Some f → buffer f = Some [] →
  importProperties req w =
    (rejected "Empty CSV file provided" None,
     {| reads := S (reads w); trace := trace w |}) ∧
  status (importProperties req w).1 = 400 ∧
  summary (importProperties req w).1 = None ∧
  decodeCalls (trace (importProperties req w).2) = decodeCalls (trace w) ∧
  insertManyCalls (trace (importProperties req w).2) = insertManyCalls (trace w).
Proof.
  intros Hf Hb. unfold importProperties.
  rewrite (handler_empty (authenticateUser req) f w Hf (or_intror Hb)).
  unfold after. simpl. by rewrite app_nil_r, Nat.add_1_r.
Qed.

(** C10.  A response with status 200 has [success] true, also when some
    rows failed validation.  Its summary counts as successful the rows that
    passed validation, which is the number of records the gateway returned,
    one per submitted record; and the validation errors are attached
    exactly when at least one row failed. *)
Theorem ok_response_reports_success req w :
  status (importProperties req w).1 = 200 →
  success (importProperties req w).1 = true ∧
  ∃ f bytes lines s batch,
    file req = Some f ∧ buffer f = Some bytes ∧ Csv.csvLines bytes = Some lines ∧
    summary (importProperties req w).1 = Some s ∧
    successful s = length (filter (λ r, accepted r) (Csv.rows lines)) ∧
    failed s = length (filter (λ r, ¬ accepted r) (Csv.rows lines)) ∧
    insertManyCalls (trace (importProperties req w).2) =
      insertManyCalls (trace w) ++ [batch] ∧
    (∀ w0, length (insertMany batch w0).1 = length batch) ∧
    successful s = length batch ∧
    (0 < failed s →
       validationErrors (importProperties req w).1 =
         Some (rowErrorsFrom 0 (Csv.rows lines))) ∧
    (failed s = 0 → validationErrors (importProperties req w).1 = None).
Proof.
  unfold importProperties. intros Hs.
  destruct (handler_cases (authenticateUser req) _ w eq_refl)
    as [[_ Hr]|[(f & _ & _ & Hr)|(f & bytes & Hf & Hb & Hne &
         [[_ Hr]|[(errs & _ & Hr)|(valid & errs & Hp & Hv & Hr)]])]];
    rewrite Hr in Hs |- *; simpl in Hs; try discriminate.
  simpl. split; [done|].
  apply processCSVStream_inv in Hp as (lines & Hl & -> & ->).
  exists f, bytes, lines. eexists _, _. do 4 (split; [done|]). simpl.
  split; [apply validValues_length|]. split; [apply rowErrorsFrom_length|].
  split. { unfold insertManyCalls. by rewrite omap_app. }
  split.
  { intros w0. unfold insertMany, emit, mbind, M_bind.
    rewrite (imapM_clock _ withId) by done. simpl. by rewrite !stamped_length. }
  split; [by rewrite stamped_length|]. split.
  - intros Hpos. by rewrite decide_True.
  - intros Hzero. rewrite decide_False; [done|lia].
Qed.

End Facts.

Lemma valid_rows_go_out_in_one_call_witness :
  insertManySizes (trace (Sample.run Sample.fileMixed).2) = [1].
Proof.
  destruct (@valid_rows_go_out_in_one_call Sample.syntax Sample.tokenizer
              Sample.clock (Sample.upload Sample.fileMixed)
              (Sample.uploaded Sample.fileMixed)
              (String.list_byte_of_string Sample.fileMixed)
              (Sample.linesIn Sample.fileMixed) initialWorld)
    as (batch & _ & _ & Hsizes).
  - reflexivity.
  - reflexivity.
  - vm_compute. discriminate.
  - reflexivity.
  - vm_compute. lia.
  - unfold Sample.run. etrans; [exact Hsizes|]. vm_compute. reflexivity.
Defined.

(** C1 as the specification states it fails: on a file of 2500 valid rows
    the gateway receives one call of 2500 records, not three calls of 1000,
    1000 and 500. *)
Lemma thousand_row_batches_counterexample :
  (λ p, (length p.1, p.2)) <$>
    @processCSVStream Sample.syntax Sample.tokenizer
      (String.list_byte_of_string Sample.file2500) = Some (2500, []) ∧
  insertManySizes (trace (Sample.run Sample.file2500).2) = [2500] ∧
  insertManySizes (trace (Sample.run Sample.file2500).2) ≠ [1000; 1000; 500].
Proof.
  split; [|split].
  - vm_compute. reflexivity.
  - vm_compute. reflexivity.
  - vm_compute. discriminate.
Qed.

Lemma summary_counts_add_up_witness :
  summary (Sample.run Sample.fileMixed).1 =
    Some {| totalProcessed := 2; successful := 1; failed := 1; processingTimeMs := 3 |} ∧
  2 = 1 + 1.
Proof.
  split; [vm_compute; reflexivity|].
  apply (@summary_counts_add_up Sample.syntax Sample.tokenizer Sample.clock
           (Sample.upload Sample.fileMixed) initialWorld
           {| totalProcessed := 2; successful := 1; failed := 1;
              processingTimeMs := 3 |}).
  vm_compute. reflexivity.
Defined.

Lemma no_valid_row_is_rejected_witness :
  ∃ errs,
    Sample.run Sample.fileInvalid =
      (rejected "No valid properties found in CSV" (Some errs),
       after 1 [CsvDecode (String.list_byte_of_string Sample.fileInvalid)]
         initialWorld) ∧
    length errs = 1.
Proof.
  destruct (@no_valid_row_is_rejected Sample.syntax Sample.tokenizer Sample.clock
              (Sample.upload Sample.fileInvalid) (Sample.uploaded Sample.fileInvalid)
              (String.list_byte_of_string Sample.fileInvalid)
              (Sample.linesIn Sample.fileInvalid) initialWorld)
    as (errs & Hrun & _ & Hlen & _).
  - reflexivity.
  - reflexivity.
  - vm_compute. discriminate.
  - reflexivity.
  - apply (bool_decide_unpack _). vm_compute. reflexivity.
  - exists errs. split; [exact Hrun|]. rewrite Hlen. vm_compute. reflexivity.
Defined.

(** C3 as the specification states it fails: the only data row of the file
    is invalid, and the rejection has no summary, hence no successful or
    failed count. *)
Lemma rejection_reports_no_counts_counterexample :
  Forall (λ r, @accepted Sample.syntax r = false)
    (Csv.rows (Sample.linesIn Sample.fileInvalid)) ∧
  length (Csv.rows (Sample.linesIn Sample.fileInvalid)) = 1 ∧
  status (Sample.run Sample.fileInvalid).1 = 400 ∧
  ¬ ∃ s, summary (Sample.run Sample.fileInvalid).1 = Some s ∧
         successful s = 0 ∧ failed s = 1.
Proof.
  split; [apply (bool_decide_unpack _); vm_compute; reflexivity|].
  split; [vm_compute; reflexivity|]. split; [vm_compute; reflexivity|].
  intros (s & Hs & _). vm_compute in Hs. discriminate Hs.
Qed.

Lemma row_numbers_count_data_rows_witness :
  ∃ valid errs,
    @processCSVStream Sample.syntax Sample.tokenizer
      (String.list_byte_of_string Sample.fileMixed) = Some (valid, errs) ∧
    length valid + length errs = 2 ∧
    StronglySorted lt (row <$> errs).
Proof.
  destruct (@row_numbers_count_data_rows Sample.syntax Sample.tokenizer
              (String.list_byte_of_string Sample.fileMixed)
              ["title"; "price"; "projectId"]
              [["Villa"; "500000"; "p1"]; ["Ok"; "-5"; "p1"]])
    as (valid & errs & Hrun & _ & _ & _ & Hlen & _ & _ & Hsorted).
  - vm_compute. reflexivity.
  - exists valid, errs. split; [exact Hrun|]. split; [exact Hlen|exact Hsorted].
Defined.

Lemma empty_upload_is_rejected_witness :
  Sample.run "" =
    (rejected "Empty CSV file provided" None, {| reads := 1; trace := [] |}).
Proof.
  apply (@empty_upload_is_rejected Sample.syntax Sample.tokenizer Sample.clock
           (Sample.upload "") (Sample.uploaded "") initialWorld); reflexivity.
Defined.

Lemma ok_response_reports_success_witness :
  success (Sample.run Sample.fileMixed).1 = true ∧
  ∃ s, summary (Sample.run Sample.fileMixed).1 = Some s ∧ 0 < failed s.
Proof.
  split.
  - apply (@ok_response_reports_success Sample.syntax Sample.tokenizer Sample.clock
             (Sample.upload Sample.fileMixed) initialWorld).
    vm_compute. reflexivity.
  - eexists. split; [vm_compute; reflexivity|]. simpl. lia.
Defined.

End Coordinator.

(** ** Normalisation by the Row Validator *)

Module Normalisation.
Import Joi Server Spec Terms JoiFacts RowValidator.

(** *** Strings *)

Lemma append_cons c (s t : string) : String c s +:+ t = String c (s +:+ t).
Proof. reflexivity. Qed.

Lemma append_nil_r (s : string) : s +:+ "" = s.
Proof. induction s as [|c s IH]; [done|]. by rewrite append_cons, IH. Qed.

Lemma append_assoc (a b c : string) : (a +:+ b) +:+ c = a +:+ (b +:+ c).
Proof. induction a as [|x a IH]; [done|]. by rewrite !append_cons, IH. Qed.

Lemma rev_app_spec (s t : string) : String.rev_app s t = String.rev s +:+ t.
Proof.
  unfold String.rev. revert t. induction s as [|c s IH]; intros t; [done|].
  simpl. rewrite (IH (String c t)), (IH (String c "")).
  by rewrite append_assoc.
Qed.

Lemma rev_cons c (s : string) : String.rev (String c s) = String.rev s +:+ String c "".
Proof. unfold String.rev at 1. simpl. apply rev_app_spec. Qed.

Lemma rev_snoc c (s : string) : String.rev (s +:+ String c "") = String c (String.rev s).
Proof.
  induction s as [|x s IH]; [done|].
  by rewrite append_cons, !rev_cons, IH.
Qed.

Lemma rev_involutive (s : string) : String.rev (String.rev s) = s.
Proof.
  induction s as [|c s IH]; [done|]. by rewrite rev_cons, rev_snoc, IH.
Qed.

Lemma rev_empty (s : string) : String.rev s = "" → s = "".
Proof. intros Hs. by rewrite <- (rev_involutive s), Hs. Qed.

(** *** Trimming *)

Lemma trimStart_noLeadingSpace s : noLeadingSpace (Js.trimStart s).
Proof.
  induction s as [|c s IH]; [done|]. simpl.
  by destruct (Js.isWhiteSpace c) eqn:Hc.
Qed.

Lemma trimStart_id s : noLeadingSpace s → Js.trimStart s = s.
Proof. destruct s as [|c s]; [done|]. simpl. by intros ->. Qed.

Lemma trimStart_snoc t c :
  Js.trimStart (t +:+ String c "") =
    if decide (Js.trimStart t = "") then Js.trimStart (String c "")
    else Js.trimStart t +:+ String c "".
Proof.
  induction t as [|x t IH]; [done|]. rewrite append_cons. simpl.
  destruct (Js.isWhiteSpace x); [done|].
  by rewrite decide_False.
Qed.

Lemma trimEnd_cons c s :
  Js.trimEnd (String c s) =
    if decide (Js.trimEnd s = "") then
      if Js.isWhiteSpace c then "" else String c ""
    else String c (Js.trimEnd s).
Proof.
  unfold Js.trimEnd. rewrite rev_cons, trimStart_snoc.
  destruct (decide (Js.trimStart (String.rev s) = "")) as [He|Hne].
  - rewrite He. simpl. by destruct (Js.isWhiteSpace c).
  - rewrite decide_False by (by intros ?%rev_empty). by rewrite rev_snoc.
Qed.

Lemma trimEnd_noLeadingSpace s : noLeadingSpace s → noLeadingSpace (Js.trimEnd s).
Proof.
  destruct s as [|c s]; [done|]. simpl. intros Hc. rewrite trimEnd_cons.
  destruct (decide (Js.trimEnd s = "")); [by rewrite Hc|done].
Qed.

Lemma trimEnd_idemp s : Js.trimEnd (Js.trimEnd s) = Js.trimEnd s.
Proof.
  induction s as [|c s IH]; [done|]. rewrite trimEnd_cons.
  destruct (decide (Js.trimEnd s = "")) as [He|Hne].
  - destruct (Js.isWhiteSpace c) eqn:Hc; [done|].
    rewrite trimEnd_cons. change (Js.trimEnd "") with "".
    by rewrite decide_True, Hc.
  - rewrite trimEnd_cons, IH. by rewrite decide_False.
Qed.

Lemma trim_idemp s : Js.trim (Js.trim s) = Js.trim s.
Proof.
  unfold Js.trim.
  rewrite (trimStart_id (Js.trimEnd (Js.trimStart s)))
    by apply trimEnd_noLeadingSpace, trimStart_noLeadingSpace.
  apply trimEnd_idemp.
Qed.

Lemma trim_noLeadingSpace s : noLeadingSpace (Js.trim s).
Proof. apply trimEnd_noLeadingSpace, trimStart_noLeadingSpace. Qed.

Lemma trim_noTrailingSpace s : noTrailingSpace (Js.trim s).
Proof.
  unfold noTrailingSpace, Js.trim, Js.trimEnd. rewrite rev_involutive.
  apply trimStart_noLeadingSpace.
Qed.

(** *** The three field schemas *)

Section Fields.
Context `{NumberSyntax}.

Lemma string_field (rules : list StringRule) (s : string) :
  rules = [Trim; Min 1; Max 200] ∨ rules = [Trim; Min 1] →
  validateValue (required (string_ rules)) (Some (Js.Str s)) =
    if decide (Js.trim s = "") then Invalid StringEmpty
    else stringRules rules (Js.trim s).
Proof. by intros [-> | ->]. Qed.

Lemma title_valid_inv item ov :
  validateValue (required (string_ [Trim; Min 1; Max 200])) item = Valid ov →
  ∃ s, item = Some (Js.Str s) ∧ ov = Some (Js.Str (Js.trim s)) ∧
       1 ≤ String.length (Js.trim s) ≤ 200.
Proof.
  destruct item as [[s|q|ms]|]; try done.
  rewrite string_field by (by left).
  destruct (decide (Js.trim s = "")); [done|]. cbn [stringRules].
  destruct (Nat.leb_spec 1 (String.length (Js.trim s))); [|done].
  destruct (Nat.leb_spec (String.length (Js.trim s)) 200); [|done].
  intros [= <-]. by exists s.
Qed.

Lemma projectId_valid_inv item ov :
  validateValue (required (string_ [Trim; Min 1])) item = Valid ov →
  ∃ s, item = Some (Js.Str s) ∧ ov = Some (Js.Str (Js.trim s)) ∧
       1 ≤ String.length (Js.trim s).
Proof.
  destruct item as [[s|q|ms]|]; try done.
  rewrite string_field by (by right).
  destruct (decide (Js.trim s = "")); [done|]. cbn [stringRules].
  destruct (Nat.leb_spec 1 (String.length (Js.trim s))); [|done].
  intros [= <-]. by exists s.
Qed.

Lemma numberValue_inv (q : Q) ov :
  numberValue [Positive] q = Valid ov →
  ov = Some (Js.Num q) ∧ (0 < q)%Q ∧ (q <= inject_Z MAX_SAFE_INTEGER)%Q.
Proof.
  unfold numberValue, Qltb.
  destruct (Qle_bool q (inject_Z MAX_SAFE_INTEGER)) eqn:Hmax; [|done].
  simpl. destruct (Qle_bool (inject_Z (- MAX_SAFE_INTEGER)) q); [|done].
  simpl. destruct (Z.ltb_spec 0 (Qnum q)) as [Hpos|]; [|done].
  intros [= <-]. split; [done|]. split.
  - unfold Qlt. simpl. lia.
  - by apply Qle_bool_iff.
Qed.

Lemma price_valid_inv item ov :
  validateValue (required (number_ [Positive])) item = Valid ov →
  ∃ q, ov = Some (Js.Num q) ∧ (0 < q)%Q ∧ (q <= inject_Z MAX_SAFE_INTEGER)%Q ∧
       numberValue [Positive] q = Valid (Some (Js.Num q)) ∧
       (item = Some (Js.Num q) ∨
        ∃ s, item = Some (Js.Str s) ∧ numberCoerce s = Finite q).
Proof.
  destruct item as [[s|q|ms]|]; try done; simpl.
  - destruct (numberCoerce s) as [| | |q] eqn:Hs; try done.
    intros Hv. pose proof Hv as (-> & Hpos & Hmax)%numberValue_inv.
    exists q. do 4 (split; [done|]). right. by exists s.
  - intros Hv. pose proof Hv as (-> & Hpos & Hmax)%numberValue_inv.
    exists q. do 4 (split; [done|]). by left.
Qed.

Lemma normalised_lookup_unknown t q p k :
  k ∉ propertySchema.*1 → normalised t q p !! k = None.
Proof.
  intros Hk. unfold normalised.
  rewrite !lookup_insert_ne, lookup_empty; [done|..];
    intros <-; apply Hk; simpl; repeat constructor.
Qed.

(** The value of a successful validation, field by field. *)
Lemma validate_success_inv (record value : JsObject) :
  validate propertySchema record = Success value →
  ∃ rawTitle rawProject q,
    record !! "title" = Some (Js.Str rawTitle) ∧
    1 ≤ String.length (Js.trim rawTitle) ≤ 200 ∧
    record !! "projectId" = Some (Js.Str rawProject) ∧
    1 ≤ String.length (Js.trim rawProject) ∧
    (record !! "price" = Some (Js.Num q) ∨
     ∃ s, record !! "price" = Some (Js.Str s) ∧ numberCoerce s = Finite q) ∧
    (0 < q)%Q ∧ (q <= inject_Z MAX_SAFE_INTEGER)%Q ∧
    numberValue [Positive] q = Valid (Some (Js.Num q)) ∧
    value = normalised (Js.trim rawTitle) q (Js.trim rawProject).
Proof.
  unfold validate, propertySchema. simpl.
  destruct (validateValue _ (record !! "title")) as [ov1|] eqn:H1; [|done].
  apply title_valid_inv in H1 as (s1 & Ht & -> & Hlen1).
  rewrite lookup_insert_ne by done.
  destruct (validateValue _ (record !! "price")) as [ov2|] eqn:H2; [|done].
  apply price_valid_inv in H2 as (q & -> & Hpos & Hmax & Hq & Hprice).
  rewrite !lookup_insert_ne by done.
  destruct (validateValue _ (record !! "projectId")) as [ov3|] eqn:H3; [|done].
  apply projectId_valid_inv in H3 as (s3 & Hp & -> & Hlen3).
  intros [= <-]. exists s1, s3, q. do 8 (split; [done|]).
  apply map_eq. intros k. destruct (decide (k ∈ propertySchema.*1)) as [Hk|Hk].
  - rewrite stripUnknownKeys_lookup by done. unfold normalised.
    destruct (decide (k = "projectId")) as [->|?];
      [by rewrite !lookup_insert_eq|rewrite !(lookup_insert_ne _ "projectId") by done].
    destruct (decide (k = "price")) as [->|?];
      [by rewrite !lookup_insert_eq|rewrite !(lookup_insert_ne _ "price") by done].
    destruct (decide (k = "title")) as [->|?]; [by rewrite !lookup_insert_eq|].
    exfalso. simpl in Hk.
    repeat (apply elem_of_cons in Hk as [->|Hk]; [done|]).
    by apply elem_of_nil in Hk.
  - rewrite stripUnknownKeys_lookup_unknown by done.
    by rewrite normalised_lookup_unknown.
Qed.

(** The outcome of validation is decided by the outcomes of the declared
    fields. *)
Lemma validateKeys_outcomes (seen : list string) keys (r r' : JsObject) :
  NoDup keys.*1 →
  (∀ k sch, (k, sch) ∈ keys →
     validateValue sch (r !! k) = validateValue sch (r' !! k)) →
  (∀ k, k ∈ seen → r !! k = r' !! k) →
  match validateKeys keys r, validateKeys keys r' with
  | inl d, inl d' => d = d'
  | inr v, inr v' => ∀ k, k ∈ seen ++ keys.*1 → v !! k = v' !! k
  | _, _ => False
  end.
Proof.
  revert seen r r'. induction keys as [|[key sch] rest IH];
    intros seen r r' Hnd Hout Hseen; simpl.
  { intros k Hk. rewrite app_nil_r in Hk. by apply Hseen. }
  simpl in Hnd. apply NoDup_cons in Hnd as [Hfresh Hnd].
  rewrite <- (Hout key sch) by left.
  assert (∀ k sch', (k, sch') ∈ rest → key ≠ k) as Hother.
  { intros k sch' Hin <-. apply Hfresh.
    by apply (list_elem_of_fmap_2 fst _ (key, sch')). }
  destruct (validateValue sch (r !! key)) as [[v|]|c]; [| |done].
  - specialize (IH (seen ++ [key]) (<[key := v]> r) (<[key := v]> r') Hnd).
    rewrite <- app_assoc in IH. apply IH.
    + intros k sch' Hin. rewrite !lookup_insert_ne by by eapply Hother.
      apply Hout. by right.
    + intros k Hk. destruct (decide (key = k)) as [->|?].
      * by rewrite !lookup_insert_eq.
      * rewrite !lookup_insert_ne by done. apply Hseen.
        apply elem_of_app in Hk as [Hk|Hk%list_elem_of_singleton]; [done|congruence].
  - specialize (IH (seen ++ [key]) (delete key r) (delete key r') Hnd).
    rewrite <- app_assoc in IH. apply IH.
    + intros k sch' Hin. rewrite !lookup_delete_ne by by eapply Hother.
      apply Hout. by right.
    + intros k Hk. destruct (decide (key = k)) as [->|?].
      * by rewrite !lookup_delete_eq.
      * rewrite !lookup_delete_ne by done. apply Hseen.
        apply elem_of_app in Hk as [Hk|Hk%list_elem_of_singleton]; [done|congruence].
Qed.

Lemma validate_outcomes keys (r r' : JsObject) :
  NoDup keys.*1 →
  (∀ k sch, (k, sch) ∈ keys →
     validateValue sch (r !! k) = validateValue sch (r' !! k)) →
  validate keys r = validate keys r'.
Proof.
  intros Hnd Hout. unfold validate.
  pose proof (validateKeys_outcomes [] keys r r' Hnd Hout) as Hag.
  destruct (validateKeys keys r) as [d|v], (validateKeys keys r') as [d'|v'].
  - by rewrite Hag by (by intros k ?%elem_of_nil).
  - destruct Hag. by intros k ?%elem_of_nil.
  - destruct Hag. by intros k ?%elem_of_nil.
  - f_equal. apply map_eq. intros k. destruct (decide (k ∈ keys.*1)) as [Hk|Hk].
    + rewrite !stripUnknownKeys_lookup by done.
      apply Hag; [by intros k' ?%elem_of_nil|done].
    + by rewrite !stripUnknownKeys_lookup_unknown.
Qed.

Lemma title_valid (s : string) :
  1 ≤ String.length (Js.trim s) ≤ 200 →
  validateValue (required (string_ [Trim; Min 1; Max 200])) (Some (Js.Str s)) =
    Valid (Some (Js.Str (Js.trim s))).
Proof.
  intros [Hmin Hmax]. rewrite string_field by (by left).
  rewrite decide_False by (intros He; rewrite He in Hmin; simpl in Hmin; lia).
  cbn [stringRules].
  destruct (Nat.leb_spec 1 (String.length (Js.trim s))); [|lia].
  destruct (Nat.leb_spec (String.length (Js.trim s)) 200); [done|lia].
Qed.

Lemma projectId_valid (s : string) :
  1 ≤ String.length (Js.trim s) →
  validateValue (required (string_ [Trim; Min 1])) (Some (Js.Str s)) =
    Valid (Some (Js.Str (Js.trim s))).
Proof.
  intros Hmin. rewrite string_field by (by right).
  rewrite decide_False by (intros He; rewrite He in Hmin; simpl in Hmin; lia).
  cbn [stringRules].
  destruct (Nat.leb_spec 1 (String.length (Js.trim s))); [done|lia].
Qed.

Lemma normalised_dom t q p :
  dom (normalised t q p) = ({["title"; "price"; "projectId"]} : gset string).
Proof. unfold normalised. rewrite !dom_insert_L, dom_empty_L. set_solver. Qed.

(** X1.  A validated record holds exactly the three declared fields, in
    normal form: the title and the project id are the trimmed cells, with
    no white space at either end, of length 1 to 200 and at least 1; the
    price is the number read from the price cell, above zero and not above
    the largest safe integer. *)
Theorem validated_record_is_normalised (record value : JsObject) :
  validate propertySchema record = Success value →
  ∃ rawTitle rawProject q,
    record !! "title" = Some (Js.Str rawTitle) ∧
    record !! "projectId" = Some (Js.Str rawProject) ∧
    (record !! "price" = Some (Js.Num q) ∨
     ∃ s, record !! "price" = Some (Js.Str s) ∧ numberCoerce s = Finite q) ∧
    value = normalised (Js.trim rawTitle) q (Js.trim rawProject) ∧
    dom value = ({["title"; "price"; "projectId"]} : gset string) ∧
    1 ≤ String.length (Js.trim rawTitle) ≤ 200 ∧
    1 ≤ String.length (Js.trim rawProject) ∧
    noLeadingSpace (Js.trim rawTitle) ∧ noTrailingSpace (Js.trim rawTitle) ∧
    noLeadingSpace (Js.trim rawProject) ∧ noTrailingSpace (Js.trim rawProject) ∧
    (0 < q)%Q ∧ (q <= inject_Z MAX_SAFE_INTEGER)%Q.
Proof.
  intros (s1 & s3 & q & Ht & Hl1 & Hp & Hl3 & Hprice & Hpos & Hmax & _ & ->)
    %validate_success_inv.
  exists s1, s3, q. do 4 (split; [done|]). split; [apply normalised_dom|].
  do 2 (split; [done|]).
  split; [apply trim_noLeadingSpace|]. split; [apply trim_noTrailingSpace|].
  split; [apply trim_noLeadingSpace|]. split; [apply trim_noTrailingSpace|].
  done.
Qed.

(** X2.  Validation is a normalisation: validating a validated record again
    succeeds and returns it unchanged. *)
Theorem validated_record_revalidates (record value : JsObject) :
  validate propertySchema record = Success value →
  validate propertySchema value = Success value.
Proof.
  intros (s1 & s3 & q & _ & Hl1 & _ & Hl3 & _ & _ & _ & Hq & ->)
    %validate_success_inv.
  pose proof (trim_idemp s1) as Hit. pose proof (trim_idemp s3) as Hip.
  remember (Js.trim s1) as t eqn:Et. remember (Js.trim s3) as p eqn:Ep.
  clear Et Ep s1 s3.
  assert (normalised t q p !! "title" = Some (Js.Str t)) as Ht.
  { unfold normalised. do 2 rewrite lookup_insert_ne by done.
    apply lookup_insert_eq. }
  assert (normalised t q p !! "price" = Some (Js.Num q)) as Hprice.
  { unfold normalised. rewrite lookup_insert_ne by done. apply lookup_insert_eq. }
  assert (normalised t q p !! "projectId" = Some (Js.Str p)) as Hp.
  { unfold normalised. apply lookup_insert_eq. }
  assert (validateValue (required (number_ [Positive])) (Some (Js.Num q)) =
            Valid (Some (Js.Num q))) as Hnum by exact Hq.
  unfold validate, propertySchema. cbn [validateKeys].
  rewrite Ht, (title_valid t), Hit by (by rewrite Hit).
  rewrite (insert_id _ _ _ Ht), Hprice, Hnum, (insert_id _ _ _ Hprice).
  rewrite Hp, (projectId_valid p), Hip by (by rewrite Hip).
  rewrite (insert_id _ _ _ Hp).
  apply (f_equal Success). apply map_eq. intros k.
  destruct (decide (k ∈ propertySchema.*1)) as [Hk|Hk].
  - by apply (stripUnknownKeys_lookup propertySchema).
  - rewrite (stripUnknownKeys_lookup_unknown propertySchema) by done.
    by rewrite normalised_lookup_unknown.
Qed.

(** X3.  White space around the title or the project id does not matter:
    replacing the cell by its trimmed form changes neither the failure nor
    the validated value. *)
Theorem surrounding_space_is_ignored (record : JsObject) key cell :
  key ∈ ["title"; "projectId"] →
  record !! key = Some (Js.Str cell) →
  validate propertySchema (<[key := Js.Str (Js.trim cell)]> record) =
    validate propertySchema record.
Proof.
  intros Hkey Hcell. apply validate_outcomes; [apply propertySchema_NoDup|].
  intros k sch Hin. destruct (decide (key = k)) as [<-|Hne].
  - rewrite lookup_insert_eq, Hcell. unfold propertySchema in Hin.
    repeat (apply elem_of_cons in Hin as [Hin|Hin]; [simplify_eq|]).
    + rewrite !string_field by (by left). by rewrite trim_idemp.
    + exfalso. repeat (apply elem_of_cons in Hkey as [Hkey|Hkey]; [done|]).
      by apply elem_of_nil in Hkey.
    + rewrite !string_field by (by right). by rewrite trim_idemp.
    + by apply elem_of_nil in Hin.
  - by rewrite lookup_insert_ne.
Qed.

End Fields.

Lemma validated_record_is_normalised_witness :
  ∃ q, @validate Sample.syntax propertySchema (Sample.row " Villa " "500000" "p1 ") =
         Success (normalised "Villa" q "p1") ∧ (0 < q)%Q.
Proof.
  destruct (@validated_record_is_normalised Sample.syntax
              (Sample.row " Villa " "500000" "p1 ")
              (normalised "Villa" (inject_Z 500000) "p1"))
    as (t & p & q & _ & _ & _ & Hv & _ & _ & _ & _ & _ & _ & _ & Hpos & _).
  - vm_compute. reflexivity.
  - exists (inject_Z 500000). split; [vm_compute; reflexivity|].
    unfold Qlt. simpl. lia.
Defined.

Lemma validated_record_revalidates_witness :
  @validate Sample.syntax propertySchema (normalised "Villa" (inject_Z 500000) "p1") =
    Success (normalised "Villa" (inject_Z 500000) "p1").
Proof.
  apply (@validated_record_revalidates Sample.syntax
           (Sample.row " Villa " "500000" "p1 ")).
  vm_compute. reflexivity.
Defined.

Lemma surrounding_space_is_ignored_witness :
  @validate Sample.syntax propertySchema
    (<["title" := Js.Str (Js.trim " Villa ")]> (Sample.row " Villa " "500000" "p1")) =
  @validate Sample.syntax propertySchema (Sample.row " Villa " "500000" "p1").
Proof.
  apply (@surrounding_space_is_ignored Sample.syntax).
  - apply (bool_decide_unpack _). vm_compute. reflexivity.
  - reflexivity.
Defined.

End Normalisation.

(** ** The import as a whole *)

Module Pipeline.
Import Joi Server Spec Terms JoiFacts RowValidator Coordinator.

Section Facts.
Context `{NumberSyntax} `{Csv.Tokenizer} `{WallClock}.

Lemma stamped_lookup {A B} (g : Z → nat → A → B) index n (l : list A) k :
  stamped g index n l !! k = g (clockAt (n + k)) (index + k) <$> l !! k.
Proof.
  revert index n k. induction l as [|x l IH]; intros index n [|k]; simpl; try done.
  - by rewrite !Nat.add_0_r.
  - rewrite IH. by rewrite !Nat.add_succ_r.
Qed.

Lemma stamped_Forall2 {A B} (g : Z → nat → A → B) index n (l : list A) :
  Forall2 (λ x y, ∃ t i, y = g t i x) l (stamped g index n l).
Proof.
  revert index n. induction l as [|x l IH]; intros index n; simpl; constructor.
  - by eexists _, _.
  - apply IH.
Qed.

Lemma insertMany_spec (properties : list JsObject) w :
  insertMany properties w =
    (stamped withId 0 (reads w) properties,
     after (length properties) [InsertMany properties] w).
Proof.
  unfold insertMany, emit, mbind, M_bind.
  rewrite (imapM_clock _ withId) by done. unfold after. simpl.
  by rewrite app_nil_r.
Qed.

Lemma validValues_Forall2 records :
  Forall2 (λ r v, validate propertySchema r = Success v)
    (filter (λ r, accepted r) records) (validValues records).
Proof.
  induction records as [|r rest IH]; simpl; [constructor|].
  destruct (validate propertySchema r) as [e|v] eqn:Hv.
  - rewrite filter_cons_False; [done|]. unfold accepted. rewrite Hv. simpl. tauto.
  - rewrite filter_cons_True; [by constructor|].
    unfold accepted. rewrite Hv. simpl. tauto.
Qed.

Lemma rowErrorsFrom_data n records :
  data <$> rowErrorsFrom n records = filter (λ r, ¬ accepted r) records.
Proof.
  revert n. induction records as [|r rest IH]; intros n; simpl; [done|].
  destruct (validate propertySchema r) as [e|v] eqn:Hv.
  - rewrite filter_cons_True; [by simpl; rewrite IH|].
    unfold accepted. rewrite Hv. simpl. tauto.
  - rewrite filter_cons_False; [done|]. unfold accepted. rewrite Hv. simpl. tauto.
Qed.

(** The five outcomes of the route's handler. *)
Lemma import_cases req w :
  (file req = None ∧
   importProperties req w = (rejected "No CSV file provided" None, after 1 [] w)) ∨
  (∃ f, file req = Some f ∧ (buffer f = None ∨ buffer f = Some []) ∧
        importProperties req w =
          (rejected "Empty CSV file provided" None, after 1 [] w)) ∨
  (∃ f bytes, file req = Some f ∧ buffer f = Some bytes ∧ bytes ≠ [] ∧
     ((processCSVStream bytes = None ∧
       importProperties req w = (internalError, after 1 [CsvDecode bytes] w)) ∨
      (∃ errs, processCSVStream bytes = Some ([], errs) ∧
         importProperties req w =
           (rejected "No valid properties found in CSV" (Some errs),
            after 1 [CsvDecode bytes] w)) ∨
      (∃ valid errs, processCSVStream bytes = Some (valid, errs) ∧ valid ≠ [] ∧
         importProperties req w =
           (completed (length valid) (length valid) errs
              (clockAt (S (reads w) + length valid + length valid)
               - clockAt (reads w)),
            after (2 + length valid + length valid)
              [CsvDecode bytes;
               InsertMany (stamped (withBroker "broker_123") 0 (S (reads w)) valid)]
              w)))).
Proof.
  apply (handler_cases (authenticateUser req) {| id := "broker_123" |} w eq_refl).
Qed.

(** X4.  For every request the decoder is called at most once and the
    gateway at most once; the gateway is called exactly when the response
    has status 200, and never without the decoder having run. *)
Theorem gateway_is_called_at_most_once req w :
  ∃ t, trace (importProperties req w).2 = trace w ++ t ∧
       length (decodeCalls t) ≤ 1 ∧
       length (insertManyCalls t) ≤ 1 ∧
       (length (insertManyCalls t) = 1 ↔ status (importProperties req w).1 = 200) ∧
       (insertManyCalls t ≠ [] → decodeCalls t ≠ []).
Proof.
  destruct (import_cases req w)
    as [[_ Hr]|[(f & _ & _ & Hr)|(f & bytes & Hf & Hb & Hne &
         [[_ Hr]|[(errs & _ & Hr)|(valid & errs & Hp & Hv & Hr)]])]];
    rewrite Hr; simpl; eexists; (split; [done|]); simpl;
    repeat split; try done; try lia.
Qed.

(** X5.  The status of a response is 200, 400 or 500; [success] is true,
    a summary is present and no error text is given exactly on status 200;
    and a summary always reports at least one successful record, never
    more than were processed. *)
Theorem status_and_body_agree req w :
  status (importProperties req w).1 ∈ [200; 400; 500] ∧
  (success (importProperties req w).1 = true ↔
     status (importProperties req w).1 = 200) ∧
  (is_Some (summary (importProperties req w).1) ↔
     status (importProperties req w).1 = 200) ∧
  (responseError (importProperties req w).1 = None ↔
     status (importProperties req w).1 = 200) ∧
  (∀ s, summary (importProperties req w).1 = Some s →
        1 ≤ successful s ≤ totalProcessed s).
Proof.
  destruct (import_cases req w)
    as [[_ Hr]|[(f & _ & _ & Hr)|(f & bytes & Hf & Hb & Hne &
         [[_ Hr]|[(errs & _ & Hr)|(valid & errs & Hp & Hv & Hr)]])]];
    rewrite Hr; simpl.
  1-4: (split; [repeat constructor|]);
       repeat split; try done; try (by intros [? ?]).
  split; [repeat constructor|]. do 3 (split; [split; by eauto|]).
  intros s [= <-]. simpl. destruct valid; [done|simpl; lia].
Qed.

(** X6.  When the record stream fails, the import is answered with status
    500 and the fixed internal-error body, which says nothing about the
    failure; the gateway is not called. *)
Theorem stream_error_is_internal_error req f bytes w :
  file req = Some f → buffer f = Some bytes → bytes ≠ [] →
  Csv.csvLines bytes = None →
  importProperties req w = (internalError, after 1 [CsvDecode bytes] w) ∧
  insertManyCalls (trace (importProperties req w).2) = insertManyCalls (trace w).
Proof.
  intros Hf Hb Hne Hl.
  assert (processCSVStream bytes = None) as Hp
    by (unfold processCSVStream; by rewrite Hl).
  unfold importProperties.
  rewrite (handler_decode_error (authenticateUser req) f _ bytes w Hf Hb Hne
             eq_refl Hp).
  split; [done|]. simpl. unfold insertManyCalls. rewrite omap_app. simpl.
  by rewrite app_nil_r.
Qed.

(** X7.  A request without a file is rejected with status 400 and the
    error "No CSV file provided"; neither the decoder nor the gateway is
    called. *)
Theorem missing_file_is_rejected req w :
  file req = None →
  importProperties req w =
    (rejected "No CSV file provided" None,
     {| reads := S (reads w); trace := trace w |}).
Proof.
  intros Hf. unfold importProperties.
  rewrite (handler_no_file (authenticateUser req) w Hf). unfold after. simpl.
  by rewrite app_nil_r, Nat.add_1_r.
Qed.

(** X8.  The batch submitted to the gateway holds the validated values of
    the rows that passed validation, in file order, each extended with the
    broker id "broker_123" and a creation date and nothing else. *)
Theorem submitted_batch_is_the_valid_rows req f bytes lines w :
  file req = Some f → buffer f = Some bytes → bytes ≠ [] →
  Csv.csvLines bytes = Some lines →
  0 < length (filter (λ r, accepted r) (Csv.rows lines)) →
  ∃ batch,
    insertManyCalls (trace (importProperties req w).2) =
      insertManyCalls (trace w) ++ [batch] ∧
    Forall2
      (λ r b, ∃ v ms,
         validate propertySchema r = Success v ∧
         b = <["createdAt" := Js.Date ms]> (<["brokerId" := Js.Str "broker_123"]> v) ∧
         b !! "brokerId" = Some (Js.Str "broker_123") ∧
         (∀ k, k ∈ ["title"; "price"; "projectId"] → b !! k = v !! k))
      (filter (λ r, accepted r) (Csv.rows lines)) batch.
Proof.
  intros Hf Hb Hne Hl Hpos. rewrite <- validValues_length in Hpos.
  eexists. unfold importProperties.
  rewrite (handler_completed (authenticateUser req) f _ bytes _ _ w Hf Hb Hne
             eq_refl (processCSVStream_spec bytes lines Hl))
    by (intros Hnil; rewrite Hnil in Hpos; simpl in Hpos; lia).
  simpl. split.
  { unfold insertManyCalls. by rewrite omap_app. }
  eapply Forall2_trans;
    [|apply validValues_Forall2|apply stamped_Forall2].
  intros r v b Hv (ms & i & ->). exists v, ms. split; [done|].
  unfold withBroker. split; [done|]. split.
  - rewrite lookup_insert_ne by done. apply lookup_insert_eq.
  - intros k Hk. rewrite !lookup_insert_ne; [done|..]; intros <-;
      repeat (apply elem_of_cons in Hk as [Hk|Hk]; [done|]);
      by apply elem_of_nil in Hk.
Qed.

(** X9.  [Property.insertMany] returns one record per submitted record, in
    the same order: the submitted record with an [id] put on it, the id
    being the clock reading taken for that record plus its index.  It is
    recorded as one gateway call. *)
Theorem stored_records_extend_submitted (properties : list JsObject) w :
  length (insertMany properties w).1 = length properties ∧
  trace (insertMany properties w).2 = trace w ++ [InsertMany properties] ∧
  ∀ i stored, (insertMany properties w).1 !! i = Some stored →
    ∃ prop, properties !! i = Some prop ∧
            idOf stored = Some (clockAt (reads w + i) + Z.of_nat i)%Z ∧
            ∀ k, k ≠ "id" → stored !! k = prop !! k.
Proof.
  rewrite insertMany_spec. simpl. split; [apply stamped_length|].
  split; [done|]. intros i stored Hi. rewrite stamped_lookup in Hi.
  destruct (properties !! i) as [prop|]; [|done]. injection Hi as <-.
  exists prop. split; [done|]. unfold withId, idOf. split.
  - by rewrite lookup_insert_eq.
  - intros k Hk. by rewrite lookup_insert_ne.
Qed.

(** X10.  When the wall clock never goes backwards, the ids that one
    [insertMany] call generates are strictly increasing along the batch,
    hence pairwise distinct. *)
Theorem generated_ids_increase (properties : list JsObject) w i j si sj :
  monotone →
  i < j →
  (insertMany properties w).1 !! i = Some si →
  (insertMany properties w).1 !! j = Some sj →
  ∃ a b, idOf si = Some a ∧ idOf sj = Some b ∧ (a < b)%Z.
Proof.
  intros Hmono Hij Hi Hj. rewrite insertMany_spec in Hi, Hj. simpl in Hi, Hj.
  rewrite stamped_lookup in Hi, Hj.
  destruct (properties !! i) as [pi|]; [|done].
  destruct (properties !! j) as [pj|]; [|done].
  injection Hi as <-. injection Hj as <-.
  eexists _, _. unfold withId, idOf. rewrite !lookup_insert_eq.
  split; [done|]. split; [done|]. simpl.
  pose proof (Hmono (reads w + i) (reads w + j)). lia.
Qed.

(** X11.  When the wall clock never goes backwards, the processing time of
    a summary is not negative. *)
Theorem processing_time_is_not_negative req w s :
  monotone →
  summary (importProperties req w).1 = Some s →
  (0 ≤ processingTimeMs s)%Z.
Proof.
  intros Hmono.
  destruct (import_cases req w)
    as [[_ Hr]|[(f & _ & _ & Hr)|(f & bytes & Hf & Hb & Hne &
         [[_ Hr]|[(errs & _ & Hr)|(valid & errs & Hp & Hv & Hr)]])]];
    rewrite Hr; simpl; try done.
  intros [= <-]. simpl.
  pose proof (Hmono (reads w) (S (reads w + length valid + length valid))).
  lia.
Qed.

(** X12.  The stream partitions the data rows in file order: the errors
    carry, in order, the records that fail validation, and the valid
    properties are, in order, the validated values of the records that
    pass; nothing is dropped or reordered. *)
Theorem rows_are_partitioned_in_order bytes valid errs :
  processCSVStream bytes = Some (valid, errs) →
  ∃ lines,
    Csv.csvLines bytes = Some lines ∧
    data <$> errs = filter (λ r, ¬ accepted r) (Csv.rows lines) ∧
    Forall2 (λ r v, validate propertySchema r = Success v)
      (filter (λ r, accepted r) (Csv.rows lines)) valid.
Proof.
  intros (lines & Hl & -> & ->)%processCSVStream_inv. exists lines.
  split; [done|]. split; [apply rowErrorsFrom_data|apply validValues_Forall2].
Qed.

(** X13.  A non-empty file with no data line (a header line alone, or no
    line at all) is rejected with "No valid properties found in CSV" and an
    empty list of validation errors; the gateway is not called. *)
Theorem header_only_file_is_rejected req f bytes lines w :
  file req = Some f → buffer f = Some bytes → bytes ≠ [] →
  Csv.csvLines bytes = Some lines → length lines ≤ 1 →
  importProperties req w =
    (rejected "No valid properties found in CSV" (Some []),
     after 1 [CsvDecode bytes] w).
Proof.
  intros Hf Hb Hne Hl Hlen.
  assert (Csv.rows lines = []) as Hrows.
  { destruct lines as [|h [|l lines]]; [done|done|simpl in Hlen; lia]. }
  pose proof (processCSVStream_spec bytes lines Hl) as Hp. rewrite Hrows in Hp.
  unfold importProperties.
  apply (handler_no_valid (authenticateUser req) f _ bytes [] w Hf Hb Hne
           eq_refl Hp).
Qed.

End Facts.

Lemma sample_clock_monotone : @monotone Sample.clock.
Proof. intros a b Hab. unfold clockAt, Sample.clock. lia. Qed.

Lemma stream_error_is_internal_error_witness :
  (@importProperties Sample.syntax Fixtures.brokenTokenizer Sample.clock
     (Sample.upload "x") initialWorld).1 = internalError.
Proof.
  destruct (@stream_error_is_internal_error Sample.syntax Fixtures.brokenTokenizer
              Sample.clock (Sample.upload "x") (Sample.uploaded "x")
              (String.list_byte_of_string "x") initialWorld) as [Hrun _].
  - reflexivity.
  - reflexivity.
  - vm_compute. discriminate.
  - reflexivity.
  - by rewrite Hrun.
Defined.

Lemma missing_file_is_rejected_witness :
  status (@importProperties Sample.syntax Sample.tokenizer Sample.clock
            {| user := None; file := None |} initialWorld).1 = 400.
Proof.
  rewrite (@missing_file_is_rejected Sample.syntax Sample.tokenizer Sample.clock
             {| user := None; file := None |} initialWorld); reflexivity.
Defined.

Lemma submitted_batch_is_the_valid_rows_witness :
  ∃ batch,
    insertManyCalls (trace (Sample.run Sample.fileMixed).2) = [batch] ∧
    length batch = 1.
Proof.
  destruct (@submitted_batch_is_the_valid_rows Sample.syntax Sample.tokenizer
              Sample.clock (Sample.upload Sample.fileMixed)
              (Sample.uploaded Sample.fileMixed)
              (String.list_byte_of_string Sample.fileMixed)
              (Sample.linesIn Sample.fileMixed) initialWorld)
    as (batch & Hcalls & Hrows).
  - reflexivity.
  - reflexivity.
  - vm_compute. discriminate.
  - reflexivity.
  - vm_compute. lia.
  - exists batch. split; [exact Hcalls|].
    apply Forall2_length in Hrows. rewrite <- Hrows. vm_compute. reflexivity.
Defined.

Lemma generated_ids_increase_witness :
  ∃ a b, idOf (@withId 1700000000000 0 ∅) = Some a ∧
         idOf (@withId 1700000000001 1 ∅) = Some b ∧ (a < b)%Z.
Proof.
  apply (@generated_ids_increase Sample.clock [∅; ∅] initialWorld 0 1).
  - exact sample_clock_monotone.
  - lia.
  - vm_compute. reflexivity.
  - vm_compute. reflexivity.
Defined.

Lemma processing_time_is_not_negative_witness : (0 ≤ 3)%Z.
Proof.
  apply (@processing_time_is_not_negative Sample.syntax Sample.tokenizer
           Sample.clock (Sample.upload Sample.fileMixed) initialWorld
           {| totalProcessed := 2; successful := 1; failed := 1;
              processingTimeMs := 3 |}).
  - exact sample_clock_monotone.
  - vm_compute. reflexivity.
Defined.

Lemma rows_are_partitioned_in_order_witness :
  ∃ lines,
    @Csv.csvLines Sample.tokenizer (String.list_byte_of_string Sample.fileMixed) =
      Some lines ∧
    length lines = 3.
Proof.
  destruct (@rows_are_partitioned_in_order Sample.syntax Sample.tokenizer
              (String.list_byte_of_string Sample.fileMixed)
              (@validValues Sample.syntax (Csv.rows (Sample.linesIn Sample.fileMixed)))
              (@rowErrorsFrom Sample.syntax 0
                 (Csv.rows (Sample.linesIn Sample.fileMixed))))
    as (lines & Hl & _).
  - vm_compute. reflexivity.
  - exists lines. split; [exact Hl|].
    vm_compute in Hl. injection Hl as <-. reflexivity.
Defined.

Lemma header_only_file_is_rejected_witness :
  validationErrors (Sample.run Sample.header).1 = Some [].
Proof.
  unfold Sample.run.
  rewrite (@header_only_file_is_rejected Sample.syntax Sample.tokenizer
             Sample.clock (Sample.upload Sample.header)
             (Sample.uploaded Sample.header)
             (String.list_byte_of_string Sample.header)
             (Sample.linesIn Sample.header) initialWorld).
  - reflexivity.
  - reflexivity.
  - reflexivity.
  - vm_compute. discriminate.
  - reflexivity.
  - vm_compute. lia.
Defined.

End Pipeline.

(** ** The upload middleware *)

Module UploadFacts.
Import Server Upload.

Section Facts.
Context `{Joi.NumberSyntax} `{Csv.Tokenizer} `{WallClock}.

(** X14.  A file of another type than text/csv in the expected field is
    stopped by the file filter and answered by the error-handling
    middleware with status 500 and "Internal server error", not with a
    400; the handler does not run, so the clock is not read and neither
    the decoder nor the gateway is called. *)
Theorem other_file_type_is_internal_error part w :
  fieldname part = "properties-csv" →
  mimetype part ≠ "text/csv" →
  route (Some part) w =
    ({| status := 500; success := false; responseMessage := None;
        responseError := Some "Internal server error";
        summary := None; validationErrors := None |}, w).
Proof.
  intros Hfield Htype. unfold route, single, fileFilter.
  rewrite decide_True by done. by rewrite decide_True.
Qed.

(** X15.  A text/csv file in the expected field is handed to the handler,
    with its bytes as the buffer, when it holds at most 10 MiB (10485760
    bytes, inclusive); a larger one is answered with status 400 and "File
    too large. Maximum size is 10MB" without the handler being run. *)
Theorem csv_upload_size_limit part w :
  fieldname part = "properties-csv" →
  mimetype part = "text/csv" →
  ((N.of_nat (length (content part)) ≤ 10485760)%N →
   route (Some part) w =
     importProperties
       {| user := None;
          file := Some {| originalname := filename part;
                          size := length (content part);
                          buffer := Some (content part) |} |} w) ∧
  ((10485760 < N.of_nat (length (content part)))%N →
   route (Some part) w =
     (rejected "File too large. Maximum size is 10MB" None, w)).
Proof.
  intros Hfield Htype. unfold route, single, fileFilter.
  rewrite decide_True by done. rewrite decide_False by (by intros []).
  change fileSize with 10485760%N. split; intros Hsize.
  - by destruct (N.ltb_spec 10485760 (N.of_nat (length (content part)))); [lia|].
  - by destruct (N.ltb_spec 10485760 (N.of_nat (length (content part)))); [|lia].
Qed.

End Facts.

Lemma other_file_type_is_internal_error_witness :
  status (@route Sample.syntax Sample.tokenizer Sample.clock
            (Some Fixtures.pdfPart) initialWorld).1 = 500.
Proof.
  rewrite (@other_file_type_is_internal_error Sample.syntax Sample.tokenizer
             Sample.clock Fixtures.pdfPart initialWorld).
  - reflexivity.
  - reflexivity.
  - vm_compute. discriminate.
Defined.

Lemma csv_upload_size_limit_witness :
  @route Sample.syntax Sample.tokenizer Sample.clock
    (Some (Fixtures.csvPart Sample.fileMixed)) initialWorld =
  Sample.run Sample.fileMixed.
Proof.
  destruct (@csv_upload_size_limit Sample.syntax Sample.tokenizer Sample.clock
              (Fixtures.csvPart Sample.fileMixed) initialWorld) as [Hsmall _].
  - reflexivity.
  - reflexivity.
  - rewrite Hsmall; [reflexivity|]. vm_compute. discriminate.
Defined.

End UploadFacts.

(** ** Which rows are accepted, and what the others are told *)

Module Acceptance.
Import Joi Server Spec Terms JoiFacts RowValidator Normalisation Coordinator.

Section Facts.
Context `{NumberSyntax} `{Csv.Tokenizer}.

Lemma numberValue_valid (q : Q) :
  (0 < q)%Q → (q <= inject_Z MAX_SAFE_INTEGER)%Q →
  numberValue [Positive] q = Valid (Some (Js.Num q)).
Proof.
  intros Hpos Hmax. unfold numberValue, Qltb.
  assert (Qle_bool q (inject_Z MAX_SAFE_INTEGER) = true) as ->
    by (by apply Qle_bool_iff).
  assert (Qle_bool (inject_Z (- MAX_SAFE_INTEGER)) q = true) as ->.
  { apply Qle_bool_iff. apply Qlt_le_weak. eapply Qle_lt_trans; [|exact Hpos].
    unfold Qle. simpl. unfold MAX_SAFE_INTEGER. lia. }
  simpl. destruct (Z.ltb_spec 0 (Qnum q)) as [|Hle]; [done|].
  exfalso. unfold Qlt in Hpos. simpl in Hpos. lia.
Qed.

Lemma strip_declared (record : JsObject) t q p :
  stripUnknownKeys propertySchema
    (<["projectId" := Js.Str p]>
       (<["price" := Js.Num q]> (<["title" := Js.Str t]> record))) =
  normalised t q p.
Proof.
  apply map_eq. intros k. destruct (decide (k ∈ propertySchema.*1)) as [Hk|Hk].
  - rewrite stripUnknownKeys_lookup by done. unfold normalised.
    destruct (decide (k = "projectId")) as [->|?];
      [by rewrite !lookup_insert_eq|rewrite !(lookup_insert_ne _ "projectId") by done].
    destruct (decide (k = "price")) as [->|?];
      [by rewrite !lookup_insert_eq|rewrite !(lookup_insert_ne _ "price") by done].
    destruct (decide (k = "title")) as [->|?]; [by rewrite !lookup_insert_eq|].
    exfalso. simpl in Hk.
    repeat (apply elem_of_cons in Hk as [->|Hk]; [done|]).
    by apply elem_of_nil in Hk.
  - rewrite stripUnknownKeys_lookup_unknown by done.
    by rewrite normalised_lookup_unknown.
Qed.

(** X16.  Every row that meets the three rules is accepted: a title and a
    project id whose trimmed forms have 1 to 200 and at least 1 characters,
    and a price cell read as a number above zero and not above the largest
    safe integer, give the validated record made of the trimmed title, the
    number and the trimmed project id. *)
Theorem well_formed_record_is_accepted (record : JsObject)
    rawTitle rawPrice rawProject q :
  record !! "title" = Some (Js.Str rawTitle) →
  record !! "price" = Some (Js.Str rawPrice) →
  record !! "projectId" = Some (Js.Str rawProject) →
  1 ≤ String.length (Js.trim rawTitle) ≤ 200 →
  1 ≤ String.length (Js.trim rawProject) →
  numberCoerce rawPrice = Finite q →
  (0 < q)%Q → (q <= inject_Z MAX_SAFE_INTEGER)%Q →
  validate propertySchema record =
    Success (normalised (Js.trim rawTitle) q (Js.trim rawProject)).
Proof.
  intros Ht Hprice Hp Hlt Hlp Hq Hpos Hmax.
  assert (validateValue (required (number_ [Positive])) (Some (Js.Str rawPrice)) =
            Valid (Some (Js.Num q))) as Hnum.
  { simpl. rewrite Hq. by apply numberValue_valid. }
  unfold validate, propertySchema. cbn [validateKeys].
  rewrite Ht, title_valid by done.
  rewrite lookup_insert_ne, Hprice, Hnum by done.
  do 2 rewrite lookup_insert_ne by done.
  rewrite Hp, projectId_valid by done.
  apply (f_equal Success), strip_declared.
Qed.

Lemma title_codes item c :
  (∀ v, item = Some v → ∃ s, v = Js.Str s) →
  validateValue (required (string_ [Trim; Min 1; Max 200])) item = Invalid c →
  c ∈ [AnyRequired; StringEmpty; StringMax 200].
Proof.
  intros Hstr. destruct item as [v|].
  - destruct (Hstr v eq_refl) as [s ->]. rewrite string_field by (by left).
    destruct (decide (Js.trim s = "")) as [|Hne].
    { intros [= <-]. right. left. }
    cbn [stringRules].
    destruct (Nat.leb_spec 1 (String.length (Js.trim s))) as [|Hlen].
    + destruct (Nat.leb_spec (String.length (Js.trim s)) 200); [done|].
      intros [= <-]. right. right. left.
    + destruct (Js.trim s); [done|simpl in Hlen; lia].
  - intros [= <-]. left.
Qed.

Lemma projectId_codes item c :
  (∀ v, item = Some v → ∃ s, v = Js.Str s) →
  validateValue (required (string_ [Trim; Min 1])) item = Invalid c →
  c ∈ [AnyRequired; StringEmpty].
Proof.
  intros Hstr. destruct item as [v|].
  - destruct (Hstr v eq_refl) as [s ->]. rewrite string_field by (by right).
    destruct (decide (Js.trim s = "")) as [|Hne].
    { intros [= <-]. right. left. }
    cbn [stringRules].
    destruct (Nat.leb_spec 1 (String.length (Js.trim s))) as [|Hlen]; [done|].
    destruct (Js.trim s); [done|simpl in Hlen; lia].
  - intros [= <-]. left.
Qed.

Lemma price_codes item c :
  (∀ v, item = Some v → ∃ s, v = Js.Str s) →
  validateValue (required (number_ [Positive])) item = Invalid c →
  c ∈ [AnyRequired; NumberBase; NumberUnsafe; NumberInfinity; NumberPositive].
Proof.
  intros Hstr. destruct item as [v|].
  - destruct (Hstr v eq_refl) as [s ->]. simpl.
    destruct (numberCoerce s) as [| | |q].
    + intros [= <-]. right. left.
    + intros [= <-]. do 2 right. left.
    + intros [= <-]. do 3 right. left.
    + unfold numberValue. destruct (_ || _).
      * intros [= <-]. do 2 right. left.
      * simpl. destruct (0 <? Qnum q)%Z; [done|].
        intros [= <-]. do 4 right. left.
  - intros [= <-]. left.
Qed.

Lemma writeRow_strings headers cells : cellsAreStrings (Csv.writeRow headers cells).
Proof.
  unfold Csv.writeRow.
  assert (∀ (l : list (nat * string)) (o : JsObject),
            cellsAreStrings o →
            cellsAreStrings
              (foldl (λ o ic, <[Csv.columnName headers ic.1 := Js.Str ic.2]> o) o l))
    as Hfold.
  { induction l as [|ic l IH]; intros o Ho; [done|]. simpl. apply IH.
    intros k v. destruct (decide (Csv.columnName headers ic.1 = k)) as [<-|Hne].
    - rewrite lookup_insert_eq. intros [= <-]. by eexists.
    - rewrite lookup_insert_ne by done. apply Ho. }
  apply Hfold. intros k v. by rewrite lookup_empty.
Qed.

Lemma rowErrorsFrom_message n records e :
  e ∈ rowErrorsFrom n records →
  data e ∈ records ∧
  ∃ d, validate propertySchema (data e) = Failure {| details := [d] |} ∧
       error e = message d.
Proof.
  revert n. induction records as [|r rest IH]; intros n He; simpl in He.
  { by apply elem_of_nil in He. }
  destruct (validate_cases r) as [(d & Hv & _)|(v & Hv & _)]; rewrite Hv in He.
  - apply elem_of_cons in He as [->|He].
    + simpl. split; [left|]. by exists d.
    + apply IH in He as [Hin Hd]. split; [by right|done].
  - apply IH in He as [Hin Hd]. split; [by right|done].
Qed.

(** X17.  Every row error of a CSV file carries one of ten messages: for
    the title "is required", "is not allowed to be empty" or the length
    limit of 200; for the price "is required", "must be a number", "must be
    a safe number", "cannot be infinity" or "must be a positive number";
    for the project id "is required" or "is not allowed to be empty".  The
    minimum-length and must-be-a-string messages never occur. *)
Theorem row_error_messages_are_known bytes valid errs e :
  processCSVStream bytes = Some (valid, errs) →
  e ∈ errs →
  error e ∈ rowMessages.
Proof.
  intros (lines & Hl & -> & ->)%processCSVStream_inv He.
  apply rowErrorsFrom_message in He as (Hin & d & Hv & ->).
  assert (cellsAreStrings (data e)) as Hstr.
  { destruct lines as [|headers rest]; [by apply elem_of_nil in Hin|].
    simpl in Hin. apply list_elem_of_fmap in Hin as (cells & -> & _).
    apply writeRow_strings. }
  destruct (validate_cases (data e)) as [(d' & Hv' & Hd)|(v & Hv' & _)];
    [|congruence].
  rewrite Hv in Hv'. injection Hv' as <-.
  destruct Hd as (before & sch & after & Hs & _ & Hi).
  assert ((path d, sch) ∈ propertySchema) as Hmem.
  { rewrite Hs. apply elem_of_app. right. left. }
  assert (∀ v, data e !! path d = Some v → ∃ s, v = Js.Str s) as Hitem
    by (intros v; apply Hstr).
  destruct d as [p c]. simpl in *. unfold propertySchema in Hmem.
  repeat (apply elem_of_cons in Hmem as [Hmem|Hmem]; [simplify_eq|]).
  - apply title_codes in Hi; [|done].
    repeat (apply elem_of_cons in Hi as [->|Hi];
            [apply (bool_decide_unpack _); vm_compute; reflexivity|]).
    by apply elem_of_nil in Hi.
  - apply price_codes in Hi; [|done].
    repeat (apply elem_of_cons in Hi as [->|Hi];
            [apply (bool_decide_unpack _); vm_compute; reflexivity|]).
    by apply elem_of_nil in Hi.
  - apply projectId_codes in Hi; [|done].
    repeat (apply elem_of_cons in Hi as [->|Hi];
            [apply (bool_decide_unpack _); vm_compute; reflexivity|]).
    by apply elem_of_nil in Hi.
  - by apply elem_of_nil in Hmem.
Qed.

End Facts.

Lemma well_formed_record_is_accepted_witness :
  @validate Sample.syntax propertySchema (Sample.row " Villa " "500000" "p1") =
    Success (normalised "Villa" (inject_Z 500000) "p1").
Proof.
  apply (@well_formed_record_is_accepted Sample.syntax
           (Sample.row " Villa " "500000" "p1") " Villa " "500000" "p1").
  - reflexivity.
  - reflexivity.
  - reflexivity.
  - vm_compute. lia.
  - vm_compute. lia.
  - reflexivity.
  - unfold Qlt. simpl. lia.
  - unfold Qle. simpl. unfold MAX_SAFE_INTEGER. lia.
Defined.

Lemma row_error_messages_are_known_witness :
  Js.dquote +:+ "price" +:+ Js.dquote +:+ " must be a positive number" ∈ rowMessages.
Proof.
  apply (@row_error_messages_are_known Sample.syntax Sample.tokenizer
           (String.list_byte_of_string Sample.fileMixed)
           (@validValues Sample.syntax (Csv.rows (Sample.linesIn Sample.fileMixed)))
           (@rowErrorsFrom Sample.syntax 0 (Csv.rows (Sample.linesIn Sample.fileMixed)))
           {| row := 2; data := Sample.row "Ok" "-5" "p1";
              error := Js.dquote +:+ "price" +:+ Js.dquote
                         +:+ " must be a positive number" |}).
  - vm_compute. reflexivity.
  - vm_compute. left.
Defined.

End Acceptance.
